(** * Rope mesh geometry and sprite-sheet loader of pixi.js

    A shallow embedding of
    - [packages/mesh/src/geometry/RopeGeometry.js] (class [Rope]), and
    - the JSON loader ([JsonLoader.onJSONLoaded], sprite-sheet branch),
    together with the properties the specification states about them.

    JavaScript numbers are IEEE 754 binary64 values; they are modelled by
    [spec_float] with precision 53 and maximal exponent 1024, using the
    operations of [SpecFloat].  A [Float32Array] slot holds a binary32
    value: a store rounds to precision 24 / exponent 128.  A [Uint16Array]
    slot holds an integer modulo 65536.  Loop counters and array lengths
    are integers below 2^53, on which JavaScript arithmetic is exact; they
    are modelled by [nat] and [Z]. *)

From Stdlib Require Import ZArith Lia Bool Reals Lra.
From Stdlib Require Import Floats.SpecFloat.
From stdpp Require Import base list strings gmap.

Local Open Scope Z_scope.

(** ** JavaScript numbers *)

Module Num.

Definition number : Type := spec_float.

Definition prec : Z := 53.
Definition emax : Z := 1024.

Definition add (a b : number) : number := SFadd prec emax a b.
Definition sub (a b : number) : number := SFsub prec emax a b.
Definition mul (a b : number) : number := SFmul prec emax a b.
Definition div (a b : number) : number := SFdiv prec emax a b.
Definition sqrt (a : number) : number := SFsqrt prec emax a.
Definition neg (a : number) : number := SFopp a.

(** [a > b] of JavaScript: false as soon as one side is NaN. *)
Definition gt (a b : number) : bool := SFltb b a.

(** [a <= b] of JavaScript. *)
Definition leb (a b : number) : bool := SFleb a b.

(** The number denoted by an integer literal or an integer counter. *)
Definition ofZ (z : Z) : number := binary_normalize prec emax z 0 false.
Definition ofNat (n : nat) : number := ofZ (Z.of_nat n).

Definition zero : number := ofZ 0.
Definition one : number := ofZ 1.
Definition two : number := ofZ 2.
Definition ten : number := ofZ 10.

Definition is_nan (a : number) : bool :=
  match a with S754_nan => true | _ => false end.

Definition is_zero (a : number) : bool :=
  match a with S754_zero _ => true | _ => false end.

Definition is_finite (a : number) : bool :=
  match a with S754_zero _ | S754_finite _ _ _ => true | _ => false end.

(** What a [Float32Array] keeps of a number stored into it: the binary32
    value nearest to it, ties to even. *)
Definition fround (a : number) : number :=
  match a with
  | S754_finite s m e => binary_round 24 128 s m e
  | _ => a
  end.

(** What a [Uint16Array] keeps of an integer stored into it. *)
Definition toUint16 (z : Z) : Z := z mod 65536.

End Num.

Import Num.

(** ** The rope geometry ([RopeGeometry.js]) *)

Module RopeGeometry.

(** [PIXI.Point]: only the two coordinates are read. *)
Record Point : Type := mkPoint { x : number; y : number }.

#[global] Instance Point_inhabited : Inhabited Point :=
  populate (mkPoint zero zero).

(** Modelled from the spec: the UV-mapping metadata of a texture region
    (the normalized UV rectangle of section 4.1).  [Rope] only tests
    whether it is present. *)
Record TextureUvs : Type :=
  mkTextureUvs { uv_x0 : number; uv_y0 : number; uv_x1 : number; uv_y1 : number }.

(** [PIXI.Texture] as far as [Rope] looks at it: the logical height and
    the field [_uvs], which is absent until the texture is ready. *)
Record Texture : Type := mkTexture { height : number; _uvs : option TextureUvs }.

(** Calls that leave the class, in the order they are made: the
    [update()] of a buffer (with the data the buffer holds at that
    moment), [multiplyUvs()] and [containerUpdateTransform()]. *)
Inductive Signal : Type :=
| UvUpdate (data : list number)
| IndexUpdate (data : list Z)
| VertexUpdate (data : list number)
| MultiplyUvs
| ContainerUpdateTransform.

(** The places of the class where a division is written. *)
Inductive DivSite : Type :=
| UvAmount      (* amount = i / (total - 1)              in _refresh *)
| TaperRatio    (* ratio = (1 - (i / (total - 1))) * 10  in refreshVertices *)
| HalfHeight    (* num = this._texture.height / 2 *)
| NormalizeX    (* perpX /= perpLength *)
| NormalizeY.   (* perpY /= perpLength *)

(** One evaluated division. *)
Record Division : Type :=
  mkDivision { site : DivSite; numerator : number; denominator : number }.

(** The fields of a rope.  [vertexData], [uvData] and [indexData] are the
    [data] arrays of the attributes [aVertexPosition], [aTextureCoord]
    and of the index buffer; [signals] and [divisions] record what the
    methods did. *)
Record Rope : Type := mkRope {
  points : list Point;
  texture : Texture;
  vertexData : list number;
  uvData : list number;
  indexData : list Z;
  autoUpdate : bool;
  signals : list Signal;
  divisions : list Division
}.

Definition set_buffers (vs us : list number) (is_ : list Z) (r : Rope) : Rope :=
  mkRope (points r) (texture r) vs us is_ (autoUpdate r) (signals r) (divisions r).

Definition set_vertexData (vs : list number) (r : Rope) : Rope :=
  set_buffers vs (uvData r) (indexData r) r.

Definition set_uvData (us : list number) (r : Rope) : Rope :=
  set_buffers (vertexData r) us (indexData r) r.

Definition set_points (ps : list Point) (r : Rope) : Rope :=
  mkRope ps (texture r) (vertexData r) (uvData r) (indexData r)
         (autoUpdate r) (signals r) (divisions r).

Definition set_texture (t : Texture) (r : Rope) : Rope :=
  mkRope (points r) t (vertexData r) (uvData r) (indexData r)
         (autoUpdate r) (signals r) (divisions r).

Definition emit (evs : list Signal) (r : Rope) : Rope :=
  mkRope (points r) (texture r) (vertexData r) (uvData r) (indexData r)
         (autoUpdate r) (signals r ++ evs) (divisions r).

Definition set_divisions (ds : list Division) (r : Rope) : Rope :=
  mkRope (points r) (texture r) (vertexData r) (uvData r) (indexData r)
         (autoUpdate r) (signals r) ds.

(** [new Float32Array(n)] and [new Uint16Array(n)]: zero filled. *)
Definition newFloat32Array (n : nat) : list number := replicate n (S754_zero false).

Definition newUint16Array (n : nat) : list Z := replicate n 0.

(** [a[k] = v] on a [Float32Array]: the value is rounded to binary32; a
    store outside the array is dropped (a typed array never grows). *)
Definition storeF32 (k : nat) (v : number) (a : list number) : list number :=
  <[k := fround v]> a.

(** [a[k] = v] on a [Uint16Array]. *)
Definition storeU16 (k : nat) (v : Z) (a : list Z) : list Z :=
  <[k := toUint16 v]> a.

(** *** [refreshVertices] *)

(** What the loop of [refreshVertices] carries from one turn to the next:
    the array [vertices], the variable [lastPoint], and the divisions
    evaluated so far. *)
Definition VLoop : Type := (list number * Point * list Division)%type.

(** The local variables [perpX] and [perpY] of a turn, as first assigned
    (lines 139 and 140). *)
Definition perpY0 (lastPoint nextPoint : Point) : number :=
  neg (sub (x nextPoint) (x lastPoint)).

Definition perpX0 (lastPoint nextPoint : Point) : number :=
  sub (y nextPoint) (y lastPoint).

(** One turn of the loop, for the counter value [i]. *)
Definition refreshVertices_iter (pts : list Point) (tex : Texture) (total : nat)
    (st : VLoop) (i : nat) : VLoop :=
  let '(vertices, lastPoint, divs) := st in
  let point := pts !!! i in
  let index := (i * 4)%nat in
  let nextPoint :=
    if bool_decide (i < length pts - 1)%nat then pts !!! (i + 1)%nat else point in
  let perpY := perpY0 lastPoint nextPoint in
  let perpX := perpX0 lastPoint nextPoint in
  let ratioDen := ofZ (Z.of_nat total - 1) in
  let ratio := mul (sub one (div (ofNat i) ratioDen)) ten in
  let ratio := if gt ratio one then one else ratio in
  let perpLength := sqrt (add (mul perpX perpX) (mul perpY perpY)) in
  let num := div (height tex) two in
  let perpX1 := div perpX perpLength in
  let perpY1 := div perpY perpLength in
  let perpX2 := mul perpX1 num in
  let perpY2 := mul perpY1 num in
  let vertices := storeF32 index (add (x point) perpX2) vertices in
  let vertices := storeF32 (index + 1) (add (y point) perpY2) vertices in
  let vertices := storeF32 (index + 2) (sub (x point) perpX2) vertices in
  let vertices := storeF32 (index + 3) (sub (y point) perpY2) vertices in
  (vertices, point,
   divs ++ [mkDivision TaperRatio (ofNat i) ratioDen;
            mkDivision HalfHeight (height tex) two;
            mkDivision NormalizeX perpX perpLength;
            mkDivision NormalizeY perpY perpLength]).

(** [refreshVertices].  Modelled from the spec: [this.vertices] is the
    data array of the vertex buffer, [this.geometry.buffers[0]] is that
    buffer, and [this._texture] is the texture of the rope. *)
Definition refreshVertices (r : Rope) : Rope :=
  let pts := points r in
  if bool_decide (length pts < 1)%nat then r
  else
    let lastPoint := pts !!! 0%nat in
    let total := length pts in
    let '(vertices, _, divs) :=
      foldl (refreshVertices_iter pts (texture r) total)
            (vertexData r, lastPoint, divisions r) (seq 0 total) in
    let r := set_divisions divs (set_vertexData vertices r) in
    emit [VertexUpdate vertices] r.

(** *** [_refresh] *)

(** What the loop of [_refresh] carries: the arrays [uvs] and [indices],
    and the divisions evaluated so far. *)
Definition ULoop : Type := (list number * list Z * list Division)%type.

(** One turn of the loop of [_refresh], for the counter value [i]. *)
Definition _refresh_iter (total : nat) (st : ULoop) (i : nat) : ULoop :=
  let '(uvs, indices, divs) := st in
  let index := (i * 4)%nat in
  let den := ofZ (Z.of_nat total - 1) in
  let amount := div (ofNat i) den in
  let uvs := storeF32 index amount uvs in
  let uvs := storeF32 (index + 1) zero uvs in
  let uvs := storeF32 (index + 2) amount uvs in
  let uvs := storeF32 (index + 3) one uvs in
  let index := (i * 2)%nat in
  let indices := storeU16 index (Z.of_nat index) indices in
  let indices := storeU16 (index + 1) (Z.of_nat index + 1) indices in
  (uvs, indices, divs ++ [mkDivision UvAmount (ofNat i) den]).

(** The reallocation of [_refresh] (lines 57 to 63).  The quotient
    [vertexBuffer.data.length / 4] is not floored, so it differs from
    [points.length] unless the array has exactly four slots per point. *)
Definition reallocate (r : Rope) : Rope :=
  let pts := points r in
  if bool_decide (length (vertexData r) ≠ length pts * 4)%nat then
    set_buffers (newFloat32Array (length pts * 4))
                (newFloat32Array (length pts * 4))
                (newUint16Array (length pts * 2)) r
  else r.

(** The rebuild of UVs and indices of [_refresh] (lines 65 to 93). *)
Definition rebuild (r : Rope) : Rope :=
  let pts := points r in
  let uvs := uvData r in
  let indices := indexData r in
  let uvs := storeF32 0 zero uvs in
  let uvs := storeF32 1 zero uvs in
  let uvs := storeF32 2 zero uvs in
  let uvs := storeF32 3 one uvs in
  let indices := storeU16 0 0 indices in
  let indices := storeU16 1 1 indices in
  let total := length pts in
  let '(uvs, indices, divs) :=
    foldl (_refresh_iter total) (uvs, indices, divisions r) (seq 1 (total - 1)) in
  set_divisions divs (set_buffers (vertexData r) uvs indices r).

(** Whether [this.texture._uvs] is there. *)
Definition ready (t : Texture) : bool :=
  match _uvs t with Some _ => true | None => false end.

Section WithMesh2d.

(** [Mesh2d.multiplyUvs], which is not part of this file: the
    texture-specific multiplier applied to the array of UVs. *)
Variable multiplyUvs : Texture -> list number -> list number.

(** [_refresh].  The first test, [if (!points) return], is never taken:
    an array, even an empty one, is truthy. *)
Definition _refresh (r : Rope) : Rope :=
  let pts := points r in
  if bool_decide (length pts < 1)%nat || negb (ready (texture r))
  then r
  else
    let r := rebuild (reallocate r) in
    let r := emit [UvUpdate (uvData r); IndexUpdate (indexData r)] r in
    let r := emit [MultiplyUvs] (set_uvData (multiplyUvs (texture r) (uvData r)) r) in
    refreshVertices r.

(** Modelled from the spec: [Mesh2d.refresh], which the constructor
    calls, performs one full structural refresh synchronously. *)
Definition refresh (r : Rope) : Rope := _refresh r.

(** The constructor.  Modelled from the spec: the [Mesh2d] constructor
    keeps the texture and installs the three arrays it is given as the
    vertex, UV and index buffers; the initial value of the flag
    [autoUpdate] is a parameter. *)
Definition construct (autoUpdate0 : bool) (tex : Texture) (pts : list Point) : Rope :=
  refresh (mkRope pts tex
                  (newFloat32Array (length pts * 4))
                  (newFloat32Array (length pts * 4))
                  (newUint16Array (length pts * 2))
                  autoUpdate0 [] []).

End WithMesh2d.

(** *** [updateTransform] *)

(** Modelled from the spec: [containerUpdateTransform] is the generic
    transform update of the base container, an external collaborator; of
    its effect only the call is recorded. *)
Definition containerUpdateTransform (r : Rope) : Rope :=
  emit [ContainerUpdateTransform] r.

Definition updateTransform (r : Rope) : Rope :=
  let r := if autoUpdate r then refreshVertices r else r in
  containerUpdateTransform r.

(** The buffers of a rope, as the renderer sees them. *)
Definition buffers (r : Rope) : list number * list number * list Z :=
  (vertexData r, uvData r, indexData r).

End RopeGeometry.

(** ** The JSON loader, sprite-sheet branch of [onJSONLoaded] *)

Module JsonLoader.

(** The objects [{x, y, w, h}] and [{w, h}] of a sprite-sheet JSON. *)
Record JsonRect : Type :=
  mkJsonRect { jx : number; jy : number; jw : number; jh : number }.

Record JsonSize : Type := mkJsonSize { sw : number; sh : number }.

(** One value of the object [json.frames].  Every field may be missing
    from the JSON text; a missing [trimmed] is falsy. *)
Record FrameData : Type := mkFrameData {
  frame : option JsonRect;
  trimmed : bool;
  sourceSize : option JsonSize;
  spriteSourceSize : option JsonRect
}.

(** [core.math.Rectangle], built from [x], [y], [width], [height]. *)
Record Rectangle : Type :=
  mkRectangle { rx : number; ry : number; rwidth : number; rheight : number }.

Definition clone (r : Rectangle) : Rectangle :=
  mkRectangle (rx r) (ry r) (rwidth r) (rheight r).

(** The base texture of the image loader, known by the URL of its image
    ([this.baseUrl + this.json.meta.image]). *)
Record BaseTexture : Type := mkBaseTexture { imageUrl : string }.

(** [new core.Texture(baseTexture, frame, crop, trim)]. *)
Record Texture : Type := mkTexture {
  baseTexture : BaseTexture;
  textureFrame : Rectangle;
  crop : Rectangle;
  trim : option Rectangle
}.

(** How a run of the loop ends: normally, or with the [TypeError] of a
    property read on [undefined].  In both cases the global cache keeps
    what was stored before. *)
Inductive Completion : Type :=
| Normal (cache : gmap string Texture)
| Throw (cache : gmap string Texture).

Definition cacheOf (c : Completion) : gmap string Texture :=
  match c with Normal m | Throw m => m end.

(** The loop [for (var i in frameData)] (lines 137 to 156) over the
    properties of [frameData] in enumeration order, on the global
    [core.utils.TextureCache]. *)
Fixpoint processFrames (base : BaseTexture) (frameData : list (string * FrameData))
    (cache : gmap string Texture) : Completion :=
  match frameData with
  | [] => Normal cache
  | (i, fd) :: rest =>
      match frame fd with
      | None => processFrames base rest cache
      | Some rect =>
          let textureSize := mkRectangle (jx rect) (jy rect) (jw rect) (jh rect) in
          let crop := clone textureSize in
          if trimmed fd then
            match sourceSize fd, spriteSourceSize fd with
            | Some actualSize, Some realSize =>
                let trim :=
                  mkRectangle (jx realSize) (jy realSize) (sw actualSize) (sh actualSize) in
                processFrames base rest
                  (<[i := mkTexture base textureSize crop (Some trim)]> cache)
            | _, _ => Throw cache
            end
          else
            processFrames base rest (<[i := mkTexture base textureSize crop None]> cache)
      end
  end.

(** The parsed JSON as far as the sprite-sheet branch reads it:
    [json.frames] and [json.meta.image]. *)
Record Json : Type := mkJson {
  frames : option (list (string * FrameData));
  metaImage : string
}.

(** The sprite-sheet branch of [onJSONLoaded] (lines 126 to 160); [None]
    when [json.frames] is missing and another branch is taken. *)
Definition onJSONLoaded (baseUrl : string) (json : Json)
    (cache : gmap string Texture) : option Completion :=
  match frames json with
  | Some frameData =>
      let textureUrl := (baseUrl ++ metaImage json)%string in
      Some (processFrames (mkBaseTexture textureUrl) frameData cache)
  | None => None
  end.

(** The texture region the loop builds for an entry with frame [rect]. *)
Definition regionOf (base : BaseTexture) (fd : FrameData) (rect : JsonRect) : Texture :=
  let r := mkRectangle (jx rect) (jy rect) (jw rect) (jh rect) in
  mkTexture base r r
    (if trimmed fd then
       match sourceSize fd, spriteSourceSize fd with
       | Some actualSize, Some realSize =>
           Some (mkRectangle (jx realSize) (jy realSize) (sw actualSize) (sh actualSize))
       | _, _ => None
       end
     else None).

(** An entry the loop can process: if it has a frame and is marked
    trimmed, both sizes are there. *)
Definition complete (fd : FrameData) : Prop :=
  frame fd ≠ None -> trimmed fd = true ->
  sourceSize fd ≠ None ∧ spriteSourceSize fd ≠ None.

End JsonLoader.

(** ** Closed forms of the three buffers

    What the loops leave in the buffers, written slot by slot; the loops
    are proved to compute exactly these lists. *)

Module Closed.

Import RopeGeometry.

(** The value of [lastPoint] and [nextPoint] in turn [i] of the loop of
    [refreshVertices]. *)
Definition lastPointAt (pts : list Point) (i : nat) : Point := pts !!! (i - 1)%nat.

Definition nextPointAt (pts : list Point) (i : nat) : Point :=
  if bool_decide (i < length pts - 1)%nat then pts !!! (i + 1)%nat else pts !!! i.

(** The scaled normal [(perpX, perpY)] of a turn (lines 139 to 156). *)
Definition perpLengthOf (lastPoint nextPoint : Point) : number :=
  let perpX := perpX0 lastPoint nextPoint in
  let perpY := perpY0 lastPoint nextPoint in
  sqrt (add (mul perpX perpX) (mul perpY perpY)).

Definition scaledPerpX (tex : Texture) (lastPoint nextPoint : Point) : number :=
  mul (div (perpX0 lastPoint nextPoint) (perpLengthOf lastPoint nextPoint))
      (div (height tex) two).

Definition scaledPerpY (tex : Texture) (lastPoint nextPoint : Point) : number :=
  mul (div (perpY0 lastPoint nextPoint) (perpLengthOf lastPoint nextPoint))
      (div (height tex) two).

(** The four slots written for a point. *)
Definition vertexQuad (tex : Texture) (lastPoint point nextPoint : Point) : list number :=
  [fround (add (x point) (scaledPerpX tex lastPoint nextPoint));
   fround (add (y point) (scaledPerpY tex lastPoint nextPoint));
   fround (sub (x point) (scaledPerpX tex lastPoint nextPoint));
   fround (sub (y point) (scaledPerpY tex lastPoint nextPoint))].

Definition vertexQuadAt (pts : list Point) (tex : Texture) (i : nat) : list number :=
  vertexQuad tex (lastPointAt pts i) (pts !!! i) (nextPointAt pts i).

Definition vertexSpec (pts : list Point) (tex : Texture) : list number :=
  flat_map (vertexQuadAt pts tex) (seq 0 (length pts)).

(** The four divisions of a turn. *)
Definition vertexDivisionsAt (pts : list Point) (tex : Texture) (i : nat) : list Division :=
  let lastPoint := lastPointAt pts i in
  let nextPoint := nextPointAt pts i in
  [mkDivision TaperRatio (ofNat i) (ofZ (Z.of_nat (length pts) - 1));
   mkDivision HalfHeight (height tex) two;
   mkDivision NormalizeX (perpX0 lastPoint nextPoint) (perpLengthOf lastPoint nextPoint);
   mkDivision NormalizeY (perpY0 lastPoint nextPoint) (perpLengthOf lastPoint nextPoint)].

(** The UV parameter of point [i] among [total] points: the literal [0]
    for the first point, the quotient [i / (total - 1)] for the others. *)
Definition amount (total i : nat) : number :=
  match i with
  | O => zero
  | _ => div (ofNat i) (ofZ (Z.of_nat total - 1))
  end.

Definition uvQuadAt (total i : nat) : list number :=
  [fround (amount total i); fround zero; fround (amount total i); fround one].

Definition uvSpec (total : nat) : list number := flat_map (uvQuadAt total) (seq 0 total).

Definition indexPairAt (i : nat) : list Z :=
  [toUint16 (Z.of_nat (i * 2)); toUint16 (Z.of_nat (i * 2) + 1)].

Definition indexSpec (total : nat) : list Z := flat_map indexPairAt (seq 0 total).

(** The divisions of the loop of [_refresh]: one per turn, from [i = 1]. *)
Definition uvDivisions (total : nat) : list Division :=
  map (fun i => mkDivision UvAmount (ofNat i) (ofZ (Z.of_nat total - 1)))
      (seq 1 (total - 1)).

(** The invariant of the data model: the three buffers are sized for one
    and the same number of points. *)
Definition consistent (r : Rope) : Prop :=
  length (uvData r) = length (vertexData r) ∧
  (length (indexData r) * 2 = length (vertexData r))%nat.

(** A rope is [sized] when its UV and index arrays fit the points as soon
    as its vertex array does, so that no reallocation means no misfit. *)
Definition sized (r : Rope) : Prop :=
  length (vertexData r) = (length (points r) * 4)%nat ->
  length (uvData r) = (length (points r) * 4)%nat /\
  length (indexData r) = (length (points r) * 2)%nat.

(** The rope a full refresh leaves when it does not return early;
    [multiplyUvs] stands for [Mesh2d.multiplyUvs]. *)
Definition refreshed (multiplyUvs : Texture -> list number -> list number) (r : Rope) : Rope :=
  let n := length (points r) in
  mkRope (points r) (texture r)
         (vertexSpec (points r) (texture r))
         (multiplyUvs (texture r) (uvSpec n))
         (indexSpec n)
         (autoUpdate r)
         (signals r ++ [UvUpdate (uvSpec n); IndexUpdate (indexSpec n); MultiplyUvs;
                        VertexUpdate (vertexSpec (points r) (texture r))])
         (divisions r ++ uvDivisions n ++
          flat_map (vertexDivisionsAt (points r) (texture r)) (seq 0 n)).

End Closed.


(** ** Values of floats

    Used to state what rounding does: the real number a mantissa and a
    location stand for, and the relation between a real number and the
    float of [p] digits it is rounded to. *)

Module Rounding.

Definition bpow (e : Z) : R := powerRZ 2 e.

(** [x] lies in the unit interval that starts at [m], at the place the
    location says: on [m], below, on or above the midpoint. *)
Definition inbetween (m : Z) (l : location) (x : R) : Prop :=
  match l with
  | loc_Exact => x = IZR m
  | loc_Inexact Lt => (IZR m < x < IZR m + / 2)%R
  | loc_Inexact Eq => x = (IZR m + / 2)%R
  | loc_Inexact Gt => (IZR m + / 2 < x < IZR m + 1)%R
  end.

Definition rec_inbetween (mrs : shr_record) (x : R) : Prop :=
  inbetween (shr_m mrs) (loc_of_shr_record mrs) x.

(** [mz * 2^ez], with a mantissa of exactly [p] digits, is a float
    nearest to [x]: at most half a unit in the last place away, and when
    [x] lies below the binade of the float, at most a quarter. *)
Definition rounded (p : Z) (x : R) (mz ez : Z) : Prop :=
  2 ^ (p - 1) <= mz < 2 ^ p /\
  (- (bpow ez / 2) <= IZR mz * bpow ez - x <= bpow ez / 2)%R /\
  (IZR (2 ^ (p - 1)) * bpow ez - bpow ez / 4 <= x)%R.

End Rounding.

(** ** Concrete inputs used in the examples *)

Module Examples.

Import RopeGeometry.

Definition pt (a b : Z) : Point := mkPoint (ofZ a) (ofZ b).

(** A ready texture of logical height 10. *)
Definition readyUvs : TextureUvs := mkTextureUvs zero zero one one.

Definition tex10 : Texture := mkTexture (ofZ 10) (Some readyUvs).

(** The same texture before its UV metadata arrive. *)
Definition tex10_pending : Texture := mkTexture (ofZ 10) None.

(** The multiplier of a texture that fills its base image. *)
Definition identityUvs (t : Texture) (uvs : list number) : list number := uvs.

(** The multiplier of a texture that covers the left upper quarter of its
    base image: every coordinate is halved. *)
Definition halfUvs (t : Texture) (uvs : list number) : list number :=
  map (fun u => fround (mul u (div one two))) uvs.

Definition threePoints : list Point := [pt 0 0; pt 10 0; pt 20 0].

(** The binary32 value of an integer, and of one half. *)
Definition f32 (z : Z) : number := fround (ofZ z).

Definition half32 : number := fround (div one two).

(** The buffers of the scenario of three points on a horizontal line. *)
Definition vertices3 : list number :=
  [f32 0; f32 (-5); f32 0; f32 5;
   f32 10; f32 (-5); f32 10; f32 5;
   f32 20; f32 (-5); f32 20; f32 5].

Definition uvs3 : list number :=
  [f32 0; f32 0; f32 0; f32 1;
   half32; f32 0; half32; f32 1;
   f32 1; f32 0; f32 1; f32 1].

Definition indices3 : list Z := [0; 1; 2; 3; 4; 5].

(** A rope of three points, and the same rope after its point sequence
    was replaced by one of two points, or emptied. *)
Definition rope3 : Rope := construct identityUvs true tex10 threePoints.

Definition rope3_two : Rope := set_points [pt 1 1; pt 2 2] rope3.

Definition rope3_emptied : Rope := set_points [] rope3.

(** A rope of three points whose texture was swapped for one that is not
    ready yet. *)
Definition rope3_pending : Rope := set_texture tex10_pending rope3.

(** A rope of a single point. *)
Definition rope1 : Rope := construct identityUvs true tex10 [pt 3 4].

(** A rope of three points on a texture with a multiplier that is not the
    identity. *)
Definition rope3_half : Rope := construct halfUvs true tex10 threePoints.

(** The rope of three points with the flag [autoUpdate] off. *)
Definition rope3_manual : Rope := construct identityUvs false tex10 threePoints.

(** A sprite sheet with a trimmed frame and an entry without a frame. *)
Definition heroRect : JsonLoader.JsonRect :=
  JsonLoader.mkJsonRect (ofZ 2) (ofZ 4) (ofZ 30) (ofZ 40).

Definition heroFrame : JsonLoader.FrameData :=
  JsonLoader.mkFrameData (Some heroRect) true
    (Some (JsonLoader.mkJsonSize (ofZ 32) (ofZ 48)))
    (Some (JsonLoader.mkJsonRect (ofZ 1) (ofZ 3) (ofZ 30) (ofZ 40))).

Definition blankFrame : JsonLoader.FrameData :=
  JsonLoader.mkFrameData None false None None.

(** An entry marked trimmed whose sizes are missing. *)
Definition cutFrame : JsonLoader.FrameData :=
  JsonLoader.mkFrameData (Some heroRect) true None None.

Definition sheetFrames : list (string * JsonLoader.FrameData) :=
  [("hero"%string, heroFrame); ("blank"%string, blankFrame)].

Definition sheetJson : JsonLoader.Json :=
  JsonLoader.mkJson (Some sheetFrames) "sheet.png".

End Examples.

(** ** The loader: what it does with its URL

    The constructor of [JsonLoader] and the skeleton branch of
    [onJSONLoaded] cut the URL of the JSON file with [replace],
    [lastIndexOf], [substr] and [substring]. *)

Module LoaderMore.

Import Stdlib.Strings.Ascii.

(** No character of [s] is [c]. *)
Fixpoint lacks (c : ascii) (s : string) : bool :=
  match s with
  | EmptyString => true
  | String a r => negb (Ascii.eqb a c) && lacks c r
  end.

(** [url.replace(/[^\/]*$/, '')] (line 39).  The pattern matches a run of
    characters other than ['/'] that reaches the end of the string; the
    leftmost position where it matches is the first one that no ['/']
    follows, and what starts there is removed. *)
Fixpoint stripFileName (url : string) : string :=
  match url with
  | EmptyString => EmptyString
  | String a r => if lacks "/"%char url then EmptyString else String a (stripFileName r)
  end.

(** The fields the constructor sets (lines 17 to 48). *)
Record Loader : Type := mkLoader {
  url : string;
  crossorigin : bool;
  baseUrl : string;
  loaded : bool
}.

Definition newJsonLoader (url : string) (crossorigin : bool) : Loader :=
  mkLoader url crossorigin (stripFileName url) false.

(** [s.lastIndexOf(c)] for a single character: the index of the last
    [c], or [-1]. *)
Fixpoint lastIndexOf (c : ascii) (s : string) : Z :=
  match s with
  | EmptyString => -1
  | String a r =>
      let k := lastIndexOf c r in
      if 0 <=? k then k + 1 else if Ascii.eqb a c then 0 else -1
  end.

(** [s.substr(0, length)]: nothing when [length] is not positive. *)
Definition substr_0 (s : string) (length : Z) : string :=
  if length <=? 0 then EmptyString else String.substring 0 (Z.to_nat length) s.

(** [s.substring(0, end)]: a negative [end] counts as [0]. *)
Definition substring_0 (s : string) (end_ : Z) : string :=
  String.substring 0 (Z.to_nat (Z.max end_ 0)) s.

(** The path of the atlas file (line 175):
    [this.url.substr(0, this.url.lastIndexOf('.')) + '.atlas']. *)
Definition atlasPath (url : string) : string :=
  (substr_0 url (lastIndexOf "."%char url) ++ ".atlas")%string.

(** The loader of the atlas file (line 176). *)
Definition atlasLoader (l : Loader) : Loader :=
  newJsonLoader (atlasPath (url l)) (crossorigin l).

(** The directory handed to [SpineTextureLoader] (line 189), computed
    from the URL of the atlas loader:
    [this.url.substring(0, this.url.lastIndexOf('/'))]. *)
Definition spineTextureDir (l : Loader) : string :=
  let a := atlasLoader l in
  substring_0 (url a) (lastIndexOf "/"%char (url a)).

(** The sprite-sheet branch run by a loader: [this.baseUrl] is the one
    the constructor computed. *)
Definition loadSpriteSheet (l : Loader) (json : JsonLoader.Json)
    (cache : gmap string JsonLoader.Texture) : option JsonLoader.Completion :=
  JsonLoader.onJSONLoaded (baseUrl l) json cache.

(** The names under which a run of the loop stores a texture region:
    those of the entries that have a frame, in enumeration order. *)
Definition framedNames (frameData : list (string * JsonLoader.FrameData)) : list string :=
  (filter (fun e => is_Some (JsonLoader.frame e.2)) frameData).*1.

End LoaderMore.

(** ** More concrete inputs *)

Module MoreExamples.

Import RopeGeometry Examples.

(** The three points of [threePoints], moved. *)
Definition movedPoints : list Point := [pt 0 0; pt 10 5; pt 20 0].

(** A rope of three points whose vertex array was left sized for two
    points, with recognisable contents. *)
Definition rope3_short : Rope :=
  set_vertexData (replicate 8 (f32 7)) rope3.

(** A rope of three points that lost two of them without a full refresh. *)
Definition rope3_shrunk : Rope := set_points [pt 0 0] rope3.


(** A sheet with two frames, in two orders. *)
Definition walkFrame : JsonLoader.FrameData :=
  JsonLoader.mkFrameData
    (Some (JsonLoader.mkJsonRect (ofZ 34) (ofZ 4) (ofZ 30) (ofZ 40))) false None None.

Definition twoFrames : list (string * JsonLoader.FrameData) :=
  [("hero"%string, heroFrame); ("walk"%string, walkFrame)].

Definition twoFramesSwapped : list (string * JsonLoader.FrameData) :=
  [("walk"%string, walkFrame); ("hero"%string, heroFrame)].

End MoreExamples.

(** ** Facts of binary64 arithmetic used below: zeros and NaN *)

Module NumFacts.

Lemma sub_diag_finite (a : number) : is_finite a = true -> sub a a = S754_zero false.
Proof.
  destruct a as [s | s | | s m e]; try discriminate; intros _.
  - now destruct s.
  - unfold sub, SFsub. now rewrite Z.sub_diag.
Qed.

(** [a - a] is a zero, or NaN when [a] is infinite or NaN. *)
Lemma sub_diag_cases (a : number) : sub a a = S754_zero false \/ sub a a = S754_nan.
Proof.
  destruct a as [s | s | | s m e].
  - left. now destruct s.
  - right. now destruct s.
  - now right.
  - left. now apply sub_diag_finite.
Qed.

Lemma div_zero_zero (a b : number) :
  is_zero a = true -> is_zero b = true -> div a b = S754_nan.
Proof. now destruct a, b. Qed.

Lemma div_nan_l (b : number) : div S754_nan b = S754_nan.
Proof. reflexivity. Qed.

Lemma div_nan_r (a : number) : div a S754_nan = S754_nan.
Proof. now destruct a. Qed.

Lemma mul_nan_l (b : number) : mul S754_nan b = S754_nan.
Proof. reflexivity. Qed.

Lemma mul_nan_r (a : number) : mul a S754_nan = S754_nan.
Proof. now destruct a. Qed.

Lemma add_nan_l (b : number) : add S754_nan b = S754_nan.
Proof. reflexivity. Qed.

Lemma add_nan_r (a : number) : add a S754_nan = S754_nan.
Proof. now destruct a. Qed.

Lemma sub_nan_r (a : number) : sub a S754_nan = S754_nan.
Proof. now destruct a. Qed.

Lemma fround_nan : fround S754_nan = S754_nan.
Proof. reflexivity. Qed.

Lemma mul_zero_zero (a b : number) :
  is_zero a = true -> is_zero b = true -> is_zero (mul a b) = true.
Proof. now destruct a, b. Qed.

Lemma add_zero_zero (a b : number) :
  is_zero a = true -> is_zero b = true -> is_zero (add a b) = true.
Proof. destruct a as [[]| | |], b as [[]| | |]; easy. Qed.

Lemma sqrt_zero (a : number) : is_zero a = true -> is_zero (sqrt a) = true.
Proof. now destruct a. Qed.

Lemma neg_zero (a : number) : is_zero a = true -> is_zero (neg a) = true.
Proof. now destruct a. Qed.

(** The length of the zero vector is zero. *)
Lemma norm_zero (a b : number) :
  is_zero a = true -> is_zero b = true ->
  is_zero (sqrt (add (mul a a) (mul b b))) = true.
Proof.
  intros Ha Hb. apply sqrt_zero, add_zero_zero; now apply mul_zero_zero.
Qed.

(** The length of a vector with a NaN coordinate is NaN. *)
Lemma norm_nan_l (b : number) : sqrt (add (mul S754_nan S754_nan) (mul b b)) = S754_nan.
Proof. reflexivity. Qed.

Lemma norm_nan_r (a : number) : sqrt (add (mul a a) (mul S754_nan S754_nan)) = S754_nan.
Proof. change (mul S754_nan S754_nan) with S754_nan. now rewrite add_nan_r. Qed.

End NumFacts.

(** ** Binary64 and binary32 rounding

    The value of a float is [m * 2^e]; the lemmas below relate the
    integer algorithms of [SpecFloat] (shifts with round and sticky bits,
    rounding to nearest even, division) to these values, as far as the
    UV parameter [i / (total - 1)] needs it. *)

Module Binary.

Import Rounding.

(** *** Number of digits of a mantissa *)
Lemma digits2_pos_bounds (p : positive) :
  2 ^ (Zpos (digits2_pos p) - 1) <= Zpos p < 2 ^ Zpos (digits2_pos p).
Proof.
  induction p as [p IH | p IH |]; simpl digits2_pos.
  - rewrite Pos2Z.inj_succ. replace (Z.succ (Zpos (digits2_pos p)) - 1) with (Zpos (digits2_pos p)) by lia.
    rewrite Z.pow_succ_r by lia.
    replace (Zpos (digits2_pos p)) with (Z.succ (Zpos (digits2_pos p) - 1)) at 1 by lia.
    rewrite Z.pow_succ_r by lia. lia.
  - rewrite Pos2Z.inj_succ. replace (Z.succ (Zpos (digits2_pos p)) - 1) with (Zpos (digits2_pos p)) by lia.
    rewrite Z.pow_succ_r by lia.
    replace (Zpos (digits2_pos p)) with (Z.succ (Zpos (digits2_pos p) - 1)) at 1 by lia.
    rewrite Z.pow_succ_r by lia. lia.
  - simpl. lia.
Qed.

Lemma digits2_pos_unique (p : positive) (k : Z) :
  2 ^ (k - 1) <= Zpos p < 2 ^ k -> Zpos (digits2_pos p) = k.
Proof.
  intros [Hlo Hhi]. pose proof (digits2_pos_bounds p) as [Dlo Dhi].
  set (d := Zpos (digits2_pos p)) in *.
  assert (0 < d) by (subst d; lia).
  destruct (Z.lt_trichotomy d k) as [Hlt | [Heq | Hgt]]; [|exact Heq|].
  - assert (2 ^ d <= 2 ^ (k - 1)) by (apply Z.pow_le_mono_r; lia). lia.
  - assert (0 <= k)
      by (destruct (Z_le_gt_dec 0 k); [assumption | rewrite Z.pow_neg_r in Hhi; lia]).
    assert (2 ^ k <= 2 ^ (d - 1)) by (apply Z.pow_le_mono_r; lia). lia.
Qed.

(** *** Powers of two *)
Lemma bpow_pos (e : Z) : (0 < bpow e)%R.
Proof. apply powerRZ_lt. lra. Qed.

Lemma bpow_add (a b : Z) : bpow (a + b) = (bpow a * bpow b)%R.
Proof. apply powerRZ_add. lra. Qed.

Lemma bpow_succ (e : Z) : bpow (e + 1) = (2 * bpow e)%R.
Proof. rewrite bpow_add. unfold bpow at 2. simpl. lra. Qed.

Lemma bpow_pred (e : Z) : bpow (e - 1) = (bpow e / 2)%R.
Proof.
  pose proof (bpow_succ (e - 1)) as H. replace (e - 1 + 1) with e in H by lia. lra.
Qed.

Lemma bpow_0 : bpow 0 = 1%R.
Proof. reflexivity. Qed.

Lemma bpow_le (a b : Z) : a <= b -> (bpow a <= bpow b)%R.
Proof.
  intros Hab. replace b with (a + Z.of_nat (Z.to_nat (b - a))) by lia.
  induction (Z.to_nat (b - a)) as [|n IH].
  - replace (a + Z.of_nat 0) with a by lia. lra.
  - replace (a + Z.of_nat (S n)) with (a + Z.of_nat n + 1) by lia.
    rewrite bpow_succ. pose proof (bpow_pos (a + Z.of_nat n)). lra.
Qed.

Lemma bpow_IZR (n : Z) : 0 <= n -> bpow n = IZR (2 ^ n).
Proof.
  intros Hn. replace n with (Z.of_nat (Z.to_nat n)) by lia.
  induction (Z.to_nat n) as [|k IH].
  - reflexivity.
  - replace (Z.of_nat (S k)) with (Z.of_nat k + 1) by lia.
    rewrite bpow_succ, IH, Z.pow_add_r, mult_IZR by lia. simpl. lra.
Qed.

(** *** Right shifts keep track of the value *)
Lemma IZR_xO (p : positive) : IZR (Zpos p~0) = (2 * IZR (Zpos p))%R.
Proof. rewrite Pos2Z.inj_xO, mult_IZR. reflexivity. Qed.

Lemma IZR_xI (p : positive) : IZR (Zpos p~1) = (2 * IZR (Zpos p) + 1)%R.
Proof. rewrite Pos2Z.inj_xI, plus_IZR, mult_IZR. reflexivity. Qed.

Lemma shr_1_spec (mrs : shr_record) (x : R) :
  0 <= shr_m mrs -> rec_inbetween mrs x ->
  rec_inbetween (shr_1 mrs) (x / 2) /\ shr_m (shr_1 mrs) = shr_m mrs / 2.
Proof.
  destruct mrs as [m r s]. unfold rec_inbetween. simpl shr_m. intros Hm Hx.
  destruct m as [|p|p]; [| |lia].
  - split; [|reflexivity].
    destruct r, s; simpl in *; lra.
  - destruct p as [p|p|].
    + split; [|simpl shr_m; rewrite Pos2Z.inj_xI; apply (Z.div_unique _ 2 _ 1); lia].
      destruct r, s; simpl in Hx |- *; rewrite IZR_xI in Hx; lra.
    + split; [|simpl shr_m; rewrite Pos2Z.inj_xO; apply (Z.div_unique _ 2 _ 0); lia].
      destruct r, s; simpl in Hx |- *; rewrite IZR_xO in Hx; lra.
    + split; [|reflexivity].
      destruct r, s; simpl in Hx |- *; lra.
Qed.

Lemma shr_1_nonneg (mrs : shr_record) : 0 <= shr_m mrs -> 0 <= shr_m (shr_1 mrs).
Proof.
  intros H. destruct mrs as [m r s]. simpl in *.
  destruct m as [|[p|p|]|p]; simpl; lia.
Qed.

Lemma iter_pos_shr_1 (n : positive) :
  forall (mrs : shr_record) (x : R),
    0 <= shr_m mrs -> rec_inbetween mrs x ->
    rec_inbetween (SpecFloat.iter_pos shr_1 n mrs) (x / bpow (Zpos n)) /\
    shr_m (SpecFloat.iter_pos shr_1 n mrs) = shr_m mrs / 2 ^ Zpos n.
Proof.
  induction n as [n IH | n IH |]; intros mrs x Hm Hx; simpl SpecFloat.iter_pos.
  - destruct (shr_1_spec mrs x Hm Hx) as [H1 M1].
    destruct (IH _ _ (shr_1_nonneg _ Hm) H1) as [H2 M2].
    assert (0 <= shr_m (SpecFloat.iter_pos shr_1 n (shr_1 mrs))) as Hm2
      by (rewrite M2; apply Z.div_pos; [now apply shr_1_nonneg | apply Z.pow_pos_nonneg; lia]).
    destruct (IH _ _ Hm2 H2) as [H3 M3].
    split.
    + replace (x / bpow (Zpos n~1))%R with (x / 2 / bpow (Zpos n) / bpow (Zpos n))%R; [exact H3|].
      replace (Zpos n~1) with (Zpos n + Zpos n + 1) by lia.
      rewrite bpow_succ, bpow_add. pose proof (bpow_pos (Zpos n)). field. lra.
    + assert (2 ^ Zpos n~1 = 2 * 2 ^ Zpos n * 2 ^ Zpos n) as ->.
      { replace (Zpos n~1) with (1 + Zpos n + Zpos n) by lia.
        rewrite !Z.pow_add_r by lia. lia. }
      assert (0 < 2 ^ Zpos n) by (apply Z.pow_pos_nonneg; lia).
      rewrite M3, M2, M1. rewrite !Z.div_div by lia. f_equal. lia.
  - destruct (IH _ _ Hm Hx) as [H2 M2].
    assert (0 <= shr_m (SpecFloat.iter_pos shr_1 n mrs)) as Hm2
      by (rewrite M2; apply Z.div_pos; [assumption | apply Z.pow_pos_nonneg; lia]).
    destruct (IH _ _ Hm2 H2) as [H3 M3].
    split.
    + replace (x / bpow (Zpos n~0))%R with (x / bpow (Zpos n) / bpow (Zpos n))%R; [exact H3|].
      replace (Zpos n~0) with (Zpos n + Zpos n) by lia.
      rewrite bpow_add. pose proof (bpow_pos (Zpos n)). field. lra.
    + assert (2 ^ Zpos n~0 = 2 ^ Zpos n * 2 ^ Zpos n) as ->.
      { replace (Zpos n~0) with (Zpos n + Zpos n) by lia.
        rewrite !Z.pow_add_r by lia. lia. }
      assert (0 < 2 ^ Zpos n) by (apply Z.pow_pos_nonneg; lia).
      rewrite M3, M2. rewrite !Z.div_div by lia. f_equal.
  - destruct (shr_1_spec mrs x Hm Hx) as [H1 M1]. split.
    + replace (bpow 1) with 2%R by (unfold bpow; simpl; lra). exact H1.
    + exact M1.
Qed.

Lemma loc_of_shr_record_of_loc (m : Z) (l : location) :
  loc_of_shr_record (shr_record_of_loc m l) = l /\ shr_m (shr_record_of_loc m l) = m.
Proof. destruct l as [|[]]; split; reflexivity. Qed.

Lemma pow2_pos (n : Z) : 0 <= n -> 0 < 2 ^ n.
Proof. intros. apply Z.pow_pos_nonneg; lia. Qed.

Lemma pow2_split (a b : Z) : 0 <= a -> 0 <= b -> 2 ^ (a + b) = 2 ^ a * 2 ^ b.
Proof. intros. apply Z.pow_add_r; lia. Qed.

Section Kernel.

Variables prec emax : Z.
Hypothesis prec_pos : 0 < prec.

Lemma fexp_normal (z : Z) :
  SpecFloat.emin prec emax <= z - prec -> fexp prec emax z = z - prec.
Proof. intros H. unfold fexp. lia. Qed.

(** First shift of [binary_round_aux]: a mantissa of [d >= prec] digits
    is brought to exactly [prec] digits. *)
Lemma shr_fexp_spec (mp : positive) (e : Z) (l : location) (x : R) :
  let d := Zpos (digits2_pos mp) in
  prec <= d -> SpecFloat.emin prec emax <= d + e - prec ->
  inbetween (Zpos mp) l x ->
  exists mrs,
    shr_fexp prec emax (Zpos mp) e l = (mrs, d + e - prec) /\
    rec_inbetween mrs (x / bpow (d - prec)) /\
    2 ^ (prec - 1) <= shr_m mrs < 2 ^ prec.
Proof.
  intros d Hd Hmin Hx. unfold shr_fexp. simpl Zdigits2. fold d.
  rewrite fexp_normal by lia.
  destruct (loc_of_shr_record_of_loc (Zpos mp) l) as [Hl Hm].
  pose proof (digits2_pos_bounds mp) as [Dlo Dhi]. fold d in Dlo, Dhi.
  assert (rec_inbetween (shr_record_of_loc (Zpos mp) l) x) as Hrec
    by (unfold rec_inbetween; now rewrite Hl, Hm).
  destruct (Z.eq_dec d prec) as [Heq | Hne].
  - replace (d + e - prec - e) with 0 by lia. simpl shr.
    exists (shr_record_of_loc (Zpos mp) l). split; [f_equal; lia|].
    replace (d - prec) with 0 by lia. rewrite bpow_0, Rdiv_1_r.
    split; [exact Hrec|]. rewrite Hm, <- Heq. lia.
  - assert (exists n, d + e - prec - e = Zpos n) as [n Hn]
      by (destruct (d + e - prec - e) as [|n|n] eqn:E; [lia | now exists n | lia]).
    rewrite Hn. simpl shr.
    destruct (iter_pos_shr_1 n (shr_record_of_loc (Zpos mp) l) x) as [Hin Hmn];
      [rewrite Hm; lia | exact Hrec |].
    exists (SpecFloat.iter_pos shr_1 n (shr_record_of_loc (Zpos mp) l)).
    split; [f_equal; lia|].
    replace (d - prec) with (Zpos n) by lia. split; [exact Hin|].
    rewrite Hmn, Hm.
    assert (0 < 2 ^ Zpos n) by (apply pow2_pos; lia).
    assert (2 ^ d = 2 ^ prec * 2 ^ Zpos n) as Hsplit
      by (rewrite <- pow2_split by lia; f_equal; lia).
    assert (2 ^ (d - 1) = 2 ^ (prec - 1) * 2 ^ Zpos n) as Hsplit'
      by (rewrite <- pow2_split by lia; f_equal; lia).
    split.
    + apply Z.div_le_lower_bound; lia.
    + apply Z.div_lt_upper_bound; lia.
Qed.

Lemma round_nearest_even_spec (m : Z) (l : location) (y : R) :
  inbetween m l y ->
  (- / 2 <= IZR (round_nearest_even m l) - y <= / 2)%R /\
  m <= round_nearest_even m l <= m + 1 /\
  (IZR m <= y < IZR m + 1)%R.
Proof.
  intros Hy. destruct l as [|[]]; simpl in *.
  - subst y. split; [lra|split; [lia|lra]].
  - subst y. split; [|split; [destruct (Z.even m); lia | lra]].
    destruct (Z.even m); [|rewrite plus_IZR]; lra.
  - split; [lra|split; [lia|lra]].
  - split; [|split; [lia|lra]].
    rewrite plus_IZR. lra.
Qed.

Lemma inbetween_bounds (m : Z) (l : location) (y : R) :
  inbetween m l y -> (IZR m <= y < IZR m + 1)%R.
Proof. intros Hy. destruct l as [|[]]; simpl in *; lra. Qed.

(** The rounding kernel: a positive value [X], given by a mantissa of at
    least [prec] digits and a location, is rounded to a canonical float
    of the format, in the range where neither underflow nor overflow
    occurs. *)
Lemma binary_round_aux_spec (mp : positive) (e : Z) (l : location) (X : R) :
  let d := Zpos (digits2_pos mp) in
  prec <= d -> SpecFloat.emin prec emax <= d + e - prec -> d + e - prec + 1 <= emax - prec ->
  inbetween (Zpos mp) l (X / bpow e) ->
  exists mz ez,
    binary_round_aux prec emax false (Zpos mp) e l = S754_finite false mz ez /\
    rounded prec X (Zpos mz) ez /\
    d + e - prec <= ez <= d + e - prec + 1.
Proof.
  intros d Hd Hmin Hmax HX.
  destruct (shr_fexp_spec mp e l _ Hd Hmin HX) as (mrs & Hshr & Hin & Hlo & Hhi).
  fold d in Hshr, Hin.
  unfold binary_round_aux. rewrite Hshr.
  set (e' := d + e - prec) in *.
  set (m1 := shr_m mrs) in *.
  set (y := (X / bpow e / bpow (d - prec))%R) in *.
  assert (X = (y * bpow e')%R) as HXy.
  { subst y e'. replace (d + e - prec) with (e + (d - prec)) by lia.
    rewrite bpow_add. pose proof (bpow_pos e). pose proof (bpow_pos (d - prec)).
    field. lra. }
  destruct (round_nearest_even_spec m1 (loc_of_shr_record mrs) y Hin)
    as (Hnear & [Hr1 Hr2] & Hy1 & Hy2).
  set (r := round_nearest_even m1 (loc_of_shr_record mrs)) in *.
  assert (0 < 2 ^ (prec - 1)) as Hpp by (apply pow2_pos; lia).
  assert (2 ^ prec = 2 * 2 ^ (prec - 1)) as Hp2.
  { replace prec with (1 + (prec - 1)) at 1 by lia. rewrite pow2_split by lia. reflexivity. }
  assert (exists rp, r = Zpos rp) as [rp Hrp]
    by (destruct r as [|rp|rp]; [lia | now exists rp | lia]).
  rewrite Hrp.
  pose proof (bpow_pos e') as HB.
  assert (IZR (2 ^ (prec - 1)) <= IZR m1)%R as Hm1R by (apply IZR_le; lia).
  destruct (Z_lt_le_dec r (2 ^ prec)) as [Hsmall | Hcarry].
  - (* the rounded mantissa still has [prec] digits *)
    assert (Zpos (digits2_pos rp) = prec) as Hd2
      by (apply digits2_pos_unique; rewrite <- Hrp; lia).
    destruct (shr_fexp_spec rp e' loc_Exact (IZR (Zpos rp))) as (mrs2 & Hshr2 & Hin2 & Hb2);
      [lia | lia | reflexivity |].
    rewrite Hd2 in Hshr2, Hin2. rewrite Hshr2.
    replace (prec - prec) with 0 in Hin2 by lia. rewrite bpow_0, Rdiv_1_r in Hin2.
    apply inbetween_bounds in Hin2.
    assert (shr_m mrs2 = Zpos rp) as Hm2.
    { destruct Hin2 as [H1 H2]. apply le_IZR in H1.
      rewrite <- plus_IZR in H2. apply lt_IZR in H2. lia. }
    rewrite Hm2. replace (prec + e' - prec) with e' by lia.
    replace (e' <=? emax - prec) with true by (symmetry; apply Z.leb_le; lia).
    exists rp, e'. split; [reflexivity|]. split; [|lia].
    unfold rounded. rewrite <- Hrp. split; [lia|]. rewrite HXy. split.
    + split; nra.
    + nra.
  - (* the rounding carried into the next binade *)
    assert (r = 2 ^ prec) as Hr by lia.
    assert (Zpos (digits2_pos rp) = prec + 1) as Hd2.
    { apply digits2_pos_unique. rewrite <- Hrp, Hr.
      replace (prec + 1 - 1) with prec by lia.
      replace (prec + 1) with (1 + prec) by lia. rewrite pow2_split by lia. lia. }
    destruct (shr_fexp_spec rp e' loc_Exact (IZR (Zpos rp))) as (mrs2 & Hshr2 & Hin2 & Hb2);
      [lia | lia | reflexivity |].
    rewrite Hd2 in Hshr2, Hin2. rewrite Hshr2.
    replace (prec + 1 - prec) with 1 in Hin2 by lia.
    replace (bpow 1) with 2%R in Hin2 by (unfold bpow; simpl; lra).
    apply inbetween_bounds in Hin2.
    assert (shr_m mrs2 = 2 ^ (prec - 1)) as Hm2.
    { rewrite <- Hrp, Hr, Hp2, mult_IZR in Hin2. destruct Hin2 as [H1 H2].
      replace (2 * IZR (2 ^ (prec - 1)) / 2)%R with (IZR (2 ^ (prec - 1))) in H1, H2 by lra.
      apply le_IZR in H1. rewrite <- plus_IZR in H2. apply lt_IZR in H2. lia. }
    assert (exists mz, shr_m mrs2 = Zpos mz) as [mz Hmz]
      by (destruct (shr_m mrs2) as [|mz|mz]; [lia | now exists mz | lia]).
    rewrite Hmz. replace (prec + 1 + e' - prec) with (e' + 1) by lia.
    replace (e' + 1 <=? emax - prec) with true by (symmetry; apply Z.leb_le; lia).
    exists mz, (e' + 1). split; [reflexivity|]. split; [|lia].
    unfold rounded. rewrite <- Hmz, Hm2. split; [lia|].
    rewrite bpow_succ, HXy.
    assert (IZR r = 2 * IZR (2 ^ (prec - 1)))%R as HrR
      by (rewrite Hr, Hp2, mult_IZR; reflexivity).
    split.
    + split; nra.
    + nra.
Qed.

End Kernel.

(** *** Rounding is monotone; order of canonical floats *)

Lemma pow2_double (p : Z) : 0 < p -> 2 ^ p = 2 * 2 ^ (p - 1).
Proof.
  intros Hp. replace p with (1 + (p - 1)) at 1 by lia.
  rewrite pow2_split by lia. reflexivity.
Qed.

Lemma bpow_lt_step (a b : Z) : a < b -> (2 * bpow a <= bpow b)%R.
Proof. intros Hab. rewrite <- bpow_succ. apply bpow_le. lia. Qed.

(** Two values, each rounded to [p] digits: rounding keeps their strict
    order as a weak one. *)
Lemma rounded_mono (p : Z) (x y : R) (m1 e1 m2 e2 : Z) :
  0 < p ->
  rounded p x m1 e1 -> rounded p y m2 e2 -> (x < y)%R ->
  (IZR m1 * bpow e1 <= IZR m2 * bpow e2)%R.
Proof.
  intros Hp ([Hm1 Hm1'] & [Hx1 Hx2] & Hx3) ([Hm2 Hm2'] & [Hy1 Hy2] & Hy3) Hxy.
  pose proof (pow2_double p Hp) as Hdbl.
  assert (0 < 2 ^ (p - 1)) as Hpp by (apply pow2_pos; lia).
  set (P := IZR (2 ^ (p - 1))) in *.
  assert (1 <= P)%R as HP by (apply IZR_le; lia).
  assert (P <= IZR m1 <= 2 * P - 1)%R as [H1lo H1hi].
  { split; [apply IZR_le; lia|].
    replace (2 * P - 1)%R with (IZR (2 * 2 ^ (p - 1) - 1))
      by (rewrite minus_IZR, mult_IZR; reflexivity).
    apply IZR_le. lia. }
  assert (P <= IZR m2 <= 2 * P - 1)%R as [H2lo H2hi].
  { split; [apply IZR_le; lia|].
    replace (2 * P - 1)%R with (IZR (2 * 2 ^ (p - 1) - 1))
      by (rewrite minus_IZR, mult_IZR; reflexivity).
    apply IZR_le. lia. }
  pose proof (bpow_pos e1) as HB1. pose proof (bpow_pos e2) as HB2.
  destruct (Z.lt_trichotomy e1 e2) as [Hlt | [Heq | Hgt]].
  - pose proof (bpow_lt_step e1 e2 Hlt) as Hstep. nra.
  - subst e2. destruct (Z_le_gt_dec m1 m2) as [Hle | Hgt].
    + apply IZR_le in Hle. nra.
    + assert (IZR m2 + 1 <= IZR m1)%R
        by (rewrite <- plus_IZR; apply IZR_le; lia).
      exfalso. nra.
  - exfalso. destruct (Z.eq_dec e1 (e2 + 1)) as [Heq | Hne].
    + subst e1. rewrite bpow_succ in *. nra.
    + assert (2 * bpow (e2 + 1) <= bpow e1)%R as Hstep by (apply bpow_lt_step; lia).
      rewrite bpow_succ in Hstep. nra.
Qed.

Lemma canonical_bounds (p : Z) (m : positive) :
  0 < p -> Zpos (digits2_pos m) = p -> 2 ^ (p - 1) <= Zpos m < 2 ^ p.
Proof. intros Hp <-. apply digits2_pos_bounds. Qed.

(** On positive floats with mantissas of the same number of digits,
    [SFleb] is the order of the values. *)
Lemma SFleb_canonical (p : Z) (m1 m2 : positive) (e1 e2 : Z) :
  0 < p ->
  2 ^ (p - 1) <= Zpos m1 < 2 ^ p ->
  2 ^ (p - 1) <= Zpos m2 < 2 ^ p ->
  (IZR (Zpos m1) * bpow e1 <= IZR (Zpos m2) * bpow e2)%R ->
  SFleb (S754_finite false m1 e1) (S754_finite false m2 e2) = true.
Proof.
  intros Hp [Hm1 Hm1'] [Hm2 Hm2'] Hle.
  pose proof (pow2_double p Hp) as Hdbl.
  assert (0 < 2 ^ (p - 1)) as Hpp by (apply pow2_pos; lia).
  set (P := IZR (2 ^ (p - 1))) in *.
  assert (1 <= P)%R as HP by (apply IZR_le; lia).
  assert (P <= IZR (Zpos m1))%R as H1lo by (apply IZR_le; lia).
  assert (IZR (Zpos m2) <= 2 * P - 1)%R as H2hi.
  { replace (2 * P - 1)%R with (IZR (2 * 2 ^ (p - 1) - 1))
      by (rewrite minus_IZR, mult_IZR; reflexivity).
    apply IZR_le. lia. }
  pose proof (bpow_pos e1) as HB1. pose proof (bpow_pos e2) as HB2.
  unfold SFleb, SFcompare.
  destruct (Z.compare_spec e1 e2) as [Heq | Hlt | Hgt].
  - subst e2. rewrite Pos.compare_cont_spec. simpl.
    assert (Zpos m1 <= Zpos m2) as Hm.
    { apply le_IZR. nra. }
    destruct (Pos.compare_spec m1 m2); [reflexivity | reflexivity | lia].
  - reflexivity.
  - exfalso. pose proof (bpow_lt_step e2 e1 Hgt) as Hstep. nra.
Qed.

(** Canonical positive floats with equal values are equal. *)
Lemma canonical_inj (p : Z) (m1 m2 : positive) (e1 e2 : Z) :
  0 < p ->
  2 ^ (p - 1) <= Zpos m1 < 2 ^ p ->
  2 ^ (p - 1) <= Zpos m2 < 2 ^ p ->
  (IZR (Zpos m1) * bpow e1 = IZR (Zpos m2) * bpow e2)%R ->
  m1 = m2 /\ e1 = e2.
Proof.
  intros Hp [Hm1 Hm1'] [Hm2 Hm2'] Heq.
  pose proof (pow2_double p Hp) as Hdbl.
  assert (0 < 2 ^ (p - 1)) as Hpp by (apply pow2_pos; lia).
  set (P := IZR (2 ^ (p - 1))) in *.
  assert (1 <= P)%R as HP by (apply IZR_le; lia).
  assert (P <= IZR (Zpos m1) <= 2 * P - 1)%R as [H1lo H1hi].
  { split; [apply IZR_le; lia|].
    replace (2 * P - 1)%R with (IZR (2 * 2 ^ (p - 1) - 1))
      by (rewrite minus_IZR, mult_IZR; reflexivity).
    apply IZR_le. lia. }
  assert (P <= IZR (Zpos m2) <= 2 * P - 1)%R as [H2lo H2hi].
  { split; [apply IZR_le; lia|].
    replace (2 * P - 1)%R with (IZR (2 * 2 ^ (p - 1) - 1))
      by (rewrite minus_IZR, mult_IZR; reflexivity).
    apply IZR_le. lia. }
  pose proof (bpow_pos e1) as HB1. pose proof (bpow_pos e2) as HB2.
  destruct (Z.lt_trichotomy e1 e2) as [Hlt | [He | Hgt]].
  - exfalso. pose proof (bpow_lt_step e1 e2 Hlt) as Hstep. nra.
  - subst e2. split; [|reflexivity].
    assert (IZR (Zpos m1) = IZR (Zpos m2)) as Hm by nra.
    apply eq_IZR in Hm. congruence.
  - exfalso. pose proof (bpow_lt_step e2 e1 Hgt) as Hstep. nra.
Qed.

(** *** Integers below 2^53 are represented exactly *)

Lemma binary_round_aux_exact (prec emax : Z) (s : bool) (mp : positive) (e : Z) :
  0 < prec ->
  Zpos (digits2_pos mp) = prec ->
  SpecFloat.emin prec emax <= e <= emax - prec ->
  binary_round_aux prec emax s (Zpos mp) e loc_Exact = S754_finite s mp e.
Proof.
  intros Hp Hd [Hlo Hhi].
  assert (shr_fexp prec emax (Zpos mp) e loc_Exact
          = (Build_shr_record (Zpos mp) false false, e)) as Hshr.
  { unfold shr_fexp. simpl Zdigits2. rewrite Hd.
    rewrite fexp_normal by lia. replace (prec + e - prec - e) with 0 by lia.
    reflexivity. }
  unfold binary_round_aux. rewrite Hshr. simpl round_nearest_even. rewrite Hshr.
  simpl shr_m. now replace (e <=? emax - prec) with true by (symmetry; apply Z.leb_le; lia).
Qed.

Lemma iter_xO_spec (p k : positive) : Zpos (Pos.iter xO p k) = Zpos p * 2 ^ Zpos k.
Proof.
  induction k as [|k IH] using Pos.peano_ind.
  - simpl. lia.
  - rewrite Pos.iter_succ, Pos2Z.inj_xO, IH, Pos2Z.inj_succ, Z.pow_succ_r by lia. lia.
Qed.

Lemma ofZ_spec (z : Z) :
  1 <= z < 2 ^ 53 ->
  exists m e,
    ofZ z = S754_finite false m e /\
    Zpos (digits2_pos m) = 53 /\ -52 <= e <= 0 /\
    (IZR (Zpos m) * bpow e)%R = IZR z.
Proof.
  intros [Hz1 Hz2]. destruct z as [|zp|zp]; try lia.
  pose proof (digits2_pos_bounds zp) as [Dlo Dhi].
  set (d := Zpos (digits2_pos zp)) in *.
  assert (1 <= d) by (subst d; lia).
  assert (d <= 53).
  { destruct (Z_le_gt_dec d 53) as [Hle | Hgt]; [exact Hle|].
    assert (2 ^ 53 <= 2 ^ (d - 1)) by (apply Z.pow_le_mono_r; lia). lia. }
  unfold ofZ, Num.prec, Num.emax, binary_normalize, binary_round.
  fold d. replace (d + 0) with d by lia.
  rewrite fexp_normal by (unfold SpecFloat.emin; lia).
  unfold shl_align.
  destruct (Z.eq_dec d 53) as [Heq | Hne].
  - replace (d - 53 - 0) with 0 by lia.
    rewrite binary_round_aux_exact; [|lia|subst d; lia|unfold SpecFloat.emin; lia].
    exists zp, 0. split; [reflexivity|]. split; [subst d; lia|]. split; [lia|].
    rewrite bpow_0. lra.
  - assert (exists k, d - 53 - 0 = Zneg k) as [k Hk]
      by (destruct (d - 53 - 0) as [|k|k] eqn:E; [lia | lia | now exists k]).
    rewrite Hk.
    assert (Zpos k = 53 - d) as Hk' by lia.
    pose proof (iter_xO_spec zp k) as Hm.
    assert (0 < 2 ^ Zpos k) as Hkpos by (apply pow2_pos; lia).
    assert (Zpos (digits2_pos (Pos.iter xO zp k)) = 53) as Hd53.
    { apply digits2_pos_unique. rewrite Hm.
      assert (2 ^ (53 - 1) = 2 ^ (d - 1) * 2 ^ Zpos k) as ->
        by (rewrite <- pow2_split by lia; f_equal; lia).
      assert (2 ^ 53 = 2 ^ d * 2 ^ Zpos k) as ->
        by (rewrite <- pow2_split by lia; f_equal; lia).
      nia. }
    rewrite binary_round_aux_exact; [|lia|exact Hd53|unfold SpecFloat.emin; lia].
    exists (Pos.iter xO zp k), (d - 53). split; [reflexivity|]. split; [exact Hd53|].
    split; [lia|].
    rewrite Hm, mult_IZR, <- bpow_IZR by lia.
    rewrite Rmult_assoc, <- bpow_add. replace (Zpos k + (d - 53)) with 0 by lia.
    rewrite bpow_0. lra.
Qed.

(** *** Division *)

Lemma quotient_half (k nb : R) :
  (0 < nb)%R ->
  (2 * k = nb -> k / nb = / 2)%R /\
  (2 * k < nb -> k / nb < / 2)%R /\
  (nb < 2 * k -> / 2 < k / nb)%R.
Proof.
  intros Hnb.
  assert (0 < / nb)%R as Hi by (now apply Rinv_0_lt_compat).
  assert (nb * / nb = 1)%R as Hone by (apply Rinv_r; lra).
  unfold Rdiv. repeat split; intros H.
  - assert (2 * k * / nb = nb * / nb)%R by (now rewrite H). lra.
  - assert (2 * k * / nb < nb * / nb)%R by (now apply Rmult_lt_compat_r). lra.
  - assert (nb * / nb < 2 * k * / nb)%R by (now apply Rmult_lt_compat_r). lra.
Qed.

Lemma new_location_spec (nb k q : Z) :
  0 < nb -> 0 <= k < nb ->
  inbetween q (new_location nb k) (IZR q + IZR k / IZR nb).
Proof.
  intros Hnb [Hk1 Hk2].
  assert (0 < IZR nb)%R as HnbR by (apply IZR_lt; lia).
  destruct (quotient_half (IZR k) (IZR nb) HnbR) as (Qeq & Qlt & Qgt).
  assert (0 <= IZR k / IZR nb)%R as Hq0.
  { apply Rmult_le_pos; [apply IZR_le; lia | left; now apply Rinv_0_lt_compat]. }
  assert (IZR k / IZR nb < 1)%R as Hq1.
  { apply (Rmult_lt_reg_r (IZR nb)); [exact HnbR|].
    unfold Rdiv. rewrite Rmult_assoc, Rinv_l by lra.
    rewrite Rmult_1_r, Rmult_1_l. apply IZR_lt. lia. }
  assert (k <> 0 -> (0 < IZR k / IZR nb)%R) as Hqpos.
  { intros Hk0. apply Rmult_lt_0_compat; [apply IZR_lt; lia | now apply Rinv_0_lt_compat]. }
  assert (k = 0 -> (IZR q + IZR k / IZR nb)%R = IZR q) as Hzero.
  { intros ->. unfold Rdiv. now rewrite Rmult_0_l, Rplus_0_r. }
  unfold new_location. destruct (Z.even nb) eqn:Heven.
  - unfold new_location_even. destruct (Z.eqb_spec k 0) as [Hk0 | Hk0].
    + simpl. now apply Hzero.
    + specialize (Hqpos Hk0).
      destruct (Z.compare_spec (2 * k) nb) as [Heq | Hlt | Hgt]; simpl.
      * rewrite Qeq; [reflexivity|]. rewrite <- Heq, mult_IZR. reflexivity.
      * assert (IZR k / IZR nb < / 2)%R
          by (apply Qlt; rewrite <- mult_IZR; apply IZR_lt; lia). lra.
      * assert (/ 2 < IZR k / IZR nb)%R
          by (apply Qgt; rewrite <- mult_IZR; apply IZR_lt; lia). lra.
  - unfold new_location_odd. destruct (Z.eqb_spec k 0) as [Hk0 | Hk0].
    + simpl. now apply Hzero.
    + specialize (Hqpos Hk0).
      assert (2 * k <> nb) as Hodd.
      { intros <-. rewrite Z.even_mul in Heven. discriminate. }
      destruct (Z.compare_spec (2 * k + 1) nb) as [Heq | Hlt | Hgt]; simpl.
      * assert (IZR k / IZR nb < / 2)%R
          by (apply Qlt; rewrite <- mult_IZR; apply IZR_lt; lia). lra.
      * assert (IZR k / IZR nb < / 2)%R
          by (apply Qlt; rewrite <- mult_IZR; apply IZR_lt; lia). lra.
      * assert (/ 2 < IZR k / IZR nb)%R
          by (apply Qgt; rewrite <- mult_IZR; apply IZR_lt; lia). lra.
Qed.

Lemma digits2_pos_ge (p : positive) (k : Z) :
  2 ^ (k - 1) <= Zpos p -> k <= Zpos (digits2_pos p).
Proof.
  intros Hk. pose proof (digits2_pos_bounds p) as [_ Dhi].
  destruct (Z_le_gt_dec k (Zpos (digits2_pos p))) as [Hle | Hgt]; [exact Hle|].
  assert (2 ^ Zpos (digits2_pos p) <= 2 ^ (k - 1)) by (apply Z.pow_le_mono_r; lia). lia.
Qed.

Lemma digits2_pos_le (p : positive) (k : Z) :
  0 <= k -> Zpos p < 2 ^ k -> Zpos (digits2_pos p) <= k.
Proof.
  intros Hk0 Hk. pose proof (digits2_pos_bounds p) as [Dlo _].
  destruct (Z_le_gt_dec (Zpos (digits2_pos p)) k) as [Hle | Hgt]; [exact Hle|].
  assert (2 ^ k <= 2 ^ (Zpos (digits2_pos p) - 1)) by (apply Z.pow_le_mono_r; lia). lia.
Qed.

Section Division.

Variables prec emax : Z.
Hypothesis prec_pos : 0 < prec.

(** The quotient of two positive floats with full mantissas is the
    rounding of the quotient of their values. *)
Lemma SFdiv_spec (m1 m2 : positive) (e1 e2 : Z) :
  Zpos (digits2_pos m1) = prec ->
  Zpos (digits2_pos m2) = prec ->
  SpecFloat.emin prec emax <= e1 - e2 - prec ->
  e1 - e2 + 2 <= emax - prec ->
  exists mz ez,
    SFdiv prec emax (S754_finite false m1 e1) (S754_finite false m2 e2)
    = S754_finite false mz ez /\
    rounded prec (IZR (Zpos m1) * bpow e1 / (IZR (Zpos m2) * bpow e2)) (Zpos mz) ez /\
    e1 - e2 - prec <= ez <= e1 - e2 - prec + 2.
Proof.
  intros Hd1 Hd2 Hmin Hmax.
  pose proof (canonical_bounds prec m1 prec_pos Hd1) as [M1lo M1hi].
  pose proof (canonical_bounds prec m2 prec_pos Hd2) as [M2lo M2hi].
  pose proof (pow2_double prec prec_pos) as Hdbl.
  assert (0 < 2 ^ (prec - 1)) as Hpp by (apply pow2_pos; lia).
  unfold SFdiv, SFdiv_core_binary. simpl Zdigits2. rewrite Hd1, Hd2.
  replace (prec + e1 - (prec + e2)) with (e1 - e2) by lia.
  rewrite fexp_normal by lia.
  replace (Z.min (e1 - e2 - prec) (e1 - e2)) with (e1 - e2 - prec) by lia.
  replace (e1 - e2 - (e1 - e2 - prec)) with prec by lia.
  assert (forall a, match prec with
                    | 0 => a
                    | Zpos _ => Z.shiftl a prec
                    | Zneg _ => 0
                    end = a * 2 ^ prec) as Hshift.
  { intros a. destruct prec eqn:E; try lia. apply Z.shiftl_mul_pow2. lia. }
  rewrite Hshift.
  pose proof (Z.div_eucl_eq (Zpos m1 * 2 ^ prec) (Zpos m2) ltac:(lia)) as Heucl.
  pose proof (Z.mod_pos_bound (Zpos m1 * 2 ^ prec) (Zpos m2) ltac:(lia)) as Hmod.
  unfold Z.modulo in Hmod.
  destruct (Z.div_eucl (Zpos m1 * 2 ^ prec) (Zpos m2)) as [q r].
  simpl xorb.
  assert (2 ^ (prec - 1) <= q) as Hqlo by nia.
  assert (q < 2 ^ (prec + 1)) as Hqhi
    by (replace (prec + 1) with (1 + prec) by lia; rewrite pow2_split by lia; nia).
  assert (exists qp, q = Zpos qp) as [qp Hqp]
    by (destruct q as [|qp|qp]; [lia | now exists qp | lia]).
  subst q.
  pose proof (digits2_pos_ge qp prec Hqlo) as Hdq1.
  pose proof (digits2_pos_le qp (prec + 1) ltac:(lia) Hqhi) as Hdq2.
  set (X := (IZR (Zpos m1) * bpow e1 / (IZR (Zpos m2) * bpow e2))%R).
  destruct (binary_round_aux_spec prec emax prec_pos qp (e1 - e2 - prec)
              (new_location (Zpos m2) r) X) as (mz & ez & Heq & Hround & Hez).
  - exact Hdq1.
  - lia.
  - lia.
  - replace (X / bpow (e1 - e2 - prec))%R
      with (IZR (Zpos qp) + IZR r / IZR (Zpos m2))%R.
    + apply new_location_spec; lia.
    + subst X.
      assert (0 < IZR (Zpos m2))%R as Hm2R by (apply IZR_lt; lia).
      pose proof (bpow_pos e1). pose proof (bpow_pos e2). pose proof (bpow_pos prec).
      assert (bpow (e1 - e2 - prec) = bpow e1 / (bpow e2 * bpow prec))%R as ->.
      { assert (bpow e1 = bpow (e1 - e2 - prec) * bpow e2 * bpow prec)%R as Hsplit
          by (rewrite <- !bpow_add; f_equal; lia).
        pose proof (bpow_pos (e1 - e2 - prec)). rewrite Hsplit. field. lra. }
      assert (IZR (Zpos m1) * bpow prec = IZR (Zpos m2) * IZR (Zpos qp) + IZR r)%R as HeR.
      { rewrite bpow_IZR by lia. rewrite <- !mult_IZR, <- plus_IZR. f_equal. exact Heucl. }
      field_simplify_eq; [|lra]. nra.
  - exists mz, ez. split; [exact Heq|]. split; [exact Hround|]. lia.
Qed.

End Division.

(** *** Quotients of integers and their binary32 store *)

Lemma div_self (m : positive) (e : Z) :
  Zpos (digits2_pos m) = 53 ->
  div (S754_finite false m e) (S754_finite false m e) = one.
Proof.
  intros Hd. unfold one, ofZ, div, Num.prec, Num.emax, SFdiv, SFdiv_core_binary.
  simpl Zdigits2. rewrite Hd.
  replace (53 + e - (53 + e)) with 0 by lia.
  replace (e - e) with 0 by lia.
  change (Z.min (fexp 53 1024 0) 0) with (-53).
  change (0 - -53) with 53.
  rewrite Z.shiftl_mul_pow2 by lia.
  pose proof (Z.div_eucl_eq (Zpos m * 2 ^ 53) (Zpos m) ltac:(lia)) as Heucl.
  pose proof (Z.mod_pos_bound (Zpos m * 2 ^ 53) (Zpos m) ltac:(lia)) as Hmod.
  unfold Z.modulo in Hmod.
  destruct (Z.div_eucl (Zpos m * 2 ^ 53) (Zpos m)) as [q r].
  assert (q = 2 ^ 53) as ->.
  { generalize dependent (2 ^ 53). intros c Heucl.
    destruct (Z.lt_trichotomy q c) as [Hlt | [Heq | Hgt]]; [exfalso | exact Heq | exfalso].
    - assert (Zpos m * (q + 1) <= Zpos m * c) by (apply Z.mul_le_mono_nonneg_l; lia). lia.
    - assert (Zpos m * (c + 1) <= Zpos m * q) by (apply Z.mul_le_mono_nonneg_l; lia). lia. }
  assert (r = 0) as -> by lia.
  assert (new_location (Zpos m) 0 = loc_Exact) as ->
    by (unfold new_location; now destruct (Z.even (Zpos m))).
  reflexivity.
Qed.

Lemma fround_spec (m : positive) (e : Z) :
  Zpos (digits2_pos m) = 53 ->
  -178 <= e <= 74 ->
  exists mz ez,
    fround (S754_finite false m e) = S754_finite false mz ez /\
    rounded 24 (IZR (Zpos m) * bpow e) (Zpos mz) ez.
Proof.
  intros Hd He. unfold fround, binary_round. rewrite Hd.
  rewrite fexp_normal by (unfold SpecFloat.emin; lia).
  unfold shl_align. replace (53 + e - 24 - e) with 29 by lia.
  destruct (binary_round_aux_spec 24 128 ltac:(lia) m e loc_Exact (IZR (Zpos m) * bpow e))
    as (mz & ez & Heq & Hround & _).
  - rewrite Hd. lia.
  - rewrite Hd. unfold SpecFloat.emin. lia.
  - rewrite Hd. lia.
  - simpl. pose proof (bpow_pos e). field. lra.
  - exists mz, ez. split; assumption.
Qed.

Lemma quotient_spec (i d : Z) :
  1 <= i -> i <= d -> d < 2 ^ 53 ->
  exists mz ez,
    div (ofZ i) (ofZ d) = S754_finite false mz ez /\
    rounded 53 (IZR i / IZR d) (Zpos mz) ez /\
    -105 <= ez <= 1.
Proof.
  intros Hi Hid Hd.
  destruct (ofZ_spec i ltac:(lia)) as (m1 & e1 & -> & Hd1 & He1 & Hv1).
  destruct (ofZ_spec d ltac:(lia)) as (m2 & e2 & -> & Hd2 & He2 & Hv2).
  destruct (SFdiv_spec 53 1024 ltac:(lia) m1 m2 e1 e2 Hd1 Hd2) as (mz & ez & Heq & Hround & Hez).
  - unfold SpecFloat.emin. lia.
  - lia.
  - exists mz, ez. split; [exact Heq|]. rewrite Hv1, Hv2 in Hround. split; [exact Hround | lia].
Qed.

Lemma SFleb_refl_finite (s : bool) (m : positive) (e : Z) :
  SFleb (S754_finite s m e) (S754_finite s m e) = true.
Proof.
  unfold SFleb, SFcompare. rewrite Z.compare_refl, Pos.compare_cont_refl.
  now destruct s.
Qed.

(** The stored UV parameter [fround (i / d)] does not decrease with [i]. *)
Lemma stored_quotient_mono (i j d : Z) :
  0 <= i -> i <= j -> j <= d -> 1 <= d < 2 ^ 53 ->
  SFleb (fround (div (ofZ i) (ofZ d))) (fround (div (ofZ j) (ofZ d))) = true.
Proof.
  intros Hi Hij Hjd [Hd1 Hd2].
  assert (forall k, 1 <= k -> k <= d ->
            exists mz ez a b,
              div (ofZ k) (ofZ d) = S754_finite false mz ez /\
              rounded 53 (IZR k / IZR d) (Zpos mz) ez /\
              fround (S754_finite false mz ez) = S754_finite false a b /\
              rounded 24 (IZR (Zpos mz) * bpow ez) (Zpos a) b) as Hk.
  { intros k Hk1 Hk2.
    destruct (quotient_spec k d Hk1 Hk2 Hd2) as (mz & ez & Heq & Hround & Hez).
    destruct (fround_spec mz ez) as (a & b & Hfr & Hround24).
    - apply digits2_pos_unique. apply Hround.
    - lia.
    - exists mz, ez, a, b. easy. }
  destruct (ofZ_spec d ltac:(lia)) as (md & ed & Hofd & _).
  destruct (Z.eq_dec i 0) as [-> | Hi0].
  - change (ofZ 0) with (S754_zero false). rewrite Hofd.
    change (fround (div (S754_zero false) (S754_finite false md ed))) with (S754_zero false).
    destruct (Z.eq_dec j 0) as [-> | Hj0].
    + reflexivity.
    + rewrite <- Hofd.
      destruct (Hk j ltac:(lia) Hjd) as (mz & ez & a & b & -> & _ & -> & _). reflexivity.
  - destruct (Hk i ltac:(lia) ltac:(lia)) as (mi & ei & ai & bi & Hdi & Hri & Hfi & Hsi).
    destruct (Hk j ltac:(lia) Hjd) as (mj & ej & aj & bj & Hdj & Hrj & Hfj & Hsj).
    rewrite Hdi, Hdj, Hfi, Hfj.
    destruct (Z.eq_dec i j) as [<- | Hne].
    + rewrite Hdi in Hdj. injection Hdj as <- <-.
      rewrite Hfi in Hfj. injection Hfj as <- <-.
      apply SFleb_refl_finite.
    + assert (IZR i / IZR d < IZR j / IZR d)%R as Hlt.
      { apply Rmult_lt_compat_r; [apply Rinv_0_lt_compat, IZR_lt; lia | apply IZR_lt; lia]. }
      pose proof (rounded_mono 53 _ _ _ _ _ _ ltac:(lia) Hri Hrj Hlt) as Hv.
      destruct Hv as [Hvlt | Hveq].
      * pose proof (rounded_mono 24 _ _ _ _ _ _ ltac:(lia) Hsi Hsj Hvlt) as Hs.
        apply (SFleb_canonical 24); [lia | apply Hsi | apply Hsj | exact Hs].
      * destruct (canonical_inj 53 mi mj ei ej ltac:(lia)) as [<- <-];
          [apply Hri | apply Hrj | exact Hveq |].
        rewrite Hfi in Hfj. injection Hfj as <- <-.
        apply SFleb_refl_finite.
Qed.

End Binary.

(** ** The loops compute the closed forms *)

Module Loops.

Import RopeGeometry Closed.

#[global] Arguments add : simpl never.
#[global] Arguments sub : simpl never.
#[global] Arguments mul : simpl never.
#[global] Arguments div : simpl never.
#[global] Arguments sqrt : simpl never.
#[global] Arguments neg : simpl never.
#[global] Arguments fround : simpl never.
#[global] Arguments ofZ : simpl never.
#[global] Arguments ofNat : simpl never.
#[global] Arguments toUint16 : simpl never.

Lemma drop_four {A} (l : list A) (k : nat) :
  (k + 4 <= length l)%nat ->
  exists a b c d, drop k l = a :: b :: c :: d :: drop (k + 4) l.
Proof.
  intros Hk.
  destruct (lookup_lt_is_Some_2 l k) as [a Ha]; [lia|].
  destruct (lookup_lt_is_Some_2 l (S k)) as [b Hb]; [lia|].
  destruct (lookup_lt_is_Some_2 l (S (S k))) as [c Hc]; [lia|].
  destruct (lookup_lt_is_Some_2 l (S (S (S k)))) as [d Hd]; [lia|].
  exists a, b, c, d.
  rewrite (drop_S _ _ _ Ha), (drop_S _ _ _ Hb), (drop_S _ _ _ Hc), (drop_S _ _ _ Hd).
  do 4 f_equal. f_equal. lia.
Qed.

Lemma drop_two {A} (l : list A) (k : nat) :
  (k + 2 <= length l)%nat ->
  exists a b, drop k l = a :: b :: drop (k + 2) l.
Proof.
  intros Hk.
  destruct (lookup_lt_is_Some_2 l k) as [a Ha]; [lia|].
  destruct (lookup_lt_is_Some_2 l (S k)) as [b Hb]; [lia|].
  exists a, b.
  rewrite (drop_S _ _ _ Ha), (drop_S _ _ _ Hb).
  do 2 f_equal. f_equal. lia.
Qed.

Lemma insert_after {A} (pre suf : list A) (k c : nat) (v : A) :
  length pre = k -> <[(k + c)%nat := v]> (pre ++ suf) = pre ++ <[c := v]> suf.
Proof.
  intros <-. rewrite insert_app_r_alt by lia. do 2 f_equal. lia.
Qed.

Lemma store_quad (pre rest : list number) (a b c d a' b' c' d' : number) (k : nat) :
  length pre = k ->
  storeF32 (k + 3) d' (storeF32 (k + 2) c' (storeF32 (k + 1) b'
    (storeF32 k a' (pre ++ a :: b :: c :: d :: rest))))
  = pre ++ fround a' :: fround b' :: fround c' :: fround d' :: rest.
Proof.
  intros Hk. unfold storeF32.
  replace k with (k + 0)%nat at 4 by lia.
  rewrite !(insert_after pre _ k) by exact Hk. reflexivity.
Qed.

Lemma store_pair (pre rest : list Z) (a b a' b' : Z) (k : nat) :
  length pre = k ->
  storeU16 (k + 1) b' (storeU16 k a' (pre ++ a :: b :: rest))
  = pre ++ toUint16 a' :: toUint16 b' :: rest.
Proof.
  intros Hk. unfold storeU16.
  replace k with (k + 0)%nat at 2 by lia.
  rewrite !(insert_after pre _ k) by exact Hk. reflexivity.
Qed.

Lemma length_flat_map_const {A B} (f : A -> list B) (n : nat) (l : list A) :
  (forall a, length (f a) = n) -> length (flat_map f l) = (length l * n)%nat.
Proof.
  intros Hf. induction l as [|a l IH]; simpl; [reflexivity|].
  rewrite length_app, Hf, IH. lia.
Qed.

Lemma length_vertexSpec pts tex : length (vertexSpec pts tex) = (length pts * 4)%nat.
Proof.
  unfold vertexSpec. rewrite (length_flat_map_const _ 4%nat) by reflexivity.
  now rewrite length_seq.
Qed.

Lemma length_uvSpec n : length (uvSpec n) = (n * 4)%nat.
Proof.
  unfold uvSpec. rewrite (length_flat_map_const _ 4%nat) by reflexivity.
  now rewrite length_seq.
Qed.

Lemma length_indexSpec n : length (indexSpec n) = (n * 2)%nat.
Proof.
  unfold indexSpec. rewrite (length_flat_map_const _ 2%nat) by reflexivity.
  now rewrite length_seq.
Qed.

Lemma flat_map_snoc {A B} (f : A -> list B) (l : list A) (a : A) :
  flat_map f (l ++ [a]) = flat_map f l ++ f a.
Proof. rewrite flat_map_app. simpl. now rewrite app_nil_r. Qed.

(** The loop of [refreshVertices] after [j] turns, on an array with four
    slots per point. *)
Lemma refreshVertices_loop pts tex (v0 : list number) (d0 : list Division) (j : nat) :
  (j <= length pts)%nat ->
  length v0 = (length pts * 4)%nat ->
  foldl (refreshVertices_iter pts tex (length pts)) (v0, pts !!! 0%nat, d0) (seq 0 j)
  = (flat_map (vertexQuadAt pts tex) (seq 0 j) ++ drop (j * 4) v0,
     lastPointAt pts j,
     d0 ++ flat_map (vertexDivisionsAt pts tex) (seq 0 j)).
Proof.
  intros Hj Hlen. induction j as [|j IH].
  - simpl. unfold lastPointAt. simpl. now rewrite app_nil_r.
  - rewrite seq_S, foldl_snoc, IH by lia. simpl plus.
    rewrite !flat_map_snoc.
    destruct (drop_four v0 (j * 4)) as (a & b & c & d & Hd); [lia|].
    rewrite Hd. unfold refreshVertices_iter.
    rewrite store_quad
      by (rewrite (length_flat_map_const _ 4%nat) by reflexivity; now rewrite length_seq).
    replace (S j * 4)%nat with (j * 4 + 4)%nat by lia.
    rewrite <- !app_assoc. simpl.
    assert (lastPointAt pts (S j) = pts !!! j) as ->
      by (unfold lastPointAt; f_equal; lia).
    reflexivity.
Qed.

(** The loop of [_refresh] after [j] turns (counter values [1] to [j]),
    on arrays sized for [total] points whose first point is written. *)
Lemma _refresh_loop (total : nat) (u0 : list number) (i0 : list Z)
    (d0 : list Division) (j : nat) :
  (S j <= total)%nat ->
  length u0 = (total * 4)%nat ->
  length i0 = (total * 2)%nat ->
  foldl (_refresh_iter total) (uvQuadAt total 0 ++ drop 4 u0, indexPairAt 0 ++ drop 2 i0, d0)
        (seq 1 j)
  = (flat_map (uvQuadAt total) (seq 0 (S j)) ++ drop (S j * 4) u0,
     flat_map indexPairAt (seq 0 (S j)) ++ drop (S j * 2) i0,
     d0 ++ map (fun i => mkDivision UvAmount (ofNat i) (ofZ (Z.of_nat total - 1))) (seq 1 j)).
Proof.
  intros Hj Hu Hi. induction j as [|j IH].
  - simpl. now rewrite !app_nil_r.
  - rewrite seq_S, foldl_snoc, IH by lia. simpl plus.
    rewrite (seq_S (S j)), !flat_map_snoc, map_app. simpl plus.
    destruct (drop_four u0 (S j * 4)) as (a & b & c & d & Hd); [lia|].
    destruct (drop_two i0 (S j * 2)) as (a2 & b2 & Hd2); [lia|].
    rewrite Hd, Hd2. unfold _refresh_iter.
    rewrite store_quad
      by (rewrite (length_flat_map_const _ 4%nat) by reflexivity; now rewrite length_seq).
    rewrite store_pair
      by (rewrite (length_flat_map_const _ 2%nat) by reflexivity; now rewrite length_seq).
    replace (S (S j) * 4)%nat with (S j * 4 + 4)%nat by lia.
    replace (S (S j) * 2)%nat with (S j * 2 + 2)%nat by lia.
    rewrite <- !app_assoc. reflexivity.
Qed.

End Loops.

(** ** What the methods do to a rope *)

Module Refresh.

Import RopeGeometry Closed Loops.

Lemma length_storeF32 k v (a : list number) : length (storeF32 k v a) = length a.
Proof. apply length_insert. Qed.

Lemma length_storeU16 k v (a : list Z) : length (storeU16 k v a) = length a.
Proof. apply length_insert. Qed.

(** A turn of either loop keeps the lengths of the arrays, whatever they
    are: a store never resizes a typed array. *)
Lemma refreshVertices_iter_length pts tex total st i :
  length (refreshVertices_iter pts tex total st i).1.1 = length st.1.1.
Proof.
  destruct st as [[v l] d]. unfold refreshVertices_iter. simpl.
  now rewrite !length_storeF32.
Qed.

Lemma refreshVertices_fold_length pts tex total is_ st :
  length (foldl (refreshVertices_iter pts tex total) st is_).1.1 = length st.1.1.
Proof.
  revert st. induction is_ as [|i is_ IH]; intros st; simpl; [reflexivity|].
  now rewrite IH, refreshVertices_iter_length.
Qed.

Lemma _refresh_iter_length total st i :
  length (_refresh_iter total st i).1.1 = length st.1.1 /\
  length (_refresh_iter total st i).1.2 = length st.1.2.
Proof.
  destruct st as [[u ix] d]. unfold _refresh_iter. simpl.
  now rewrite !length_storeF32, !length_storeU16.
Qed.

Lemma _refresh_fold_length total is_ st :
  length (foldl (_refresh_iter total) st is_).1.1 = length st.1.1 /\
  length (foldl (_refresh_iter total) st is_).1.2 = length st.1.2.
Proof.
  revert st. induction is_ as [|i is_ IH]; intros st; simpl; [easy|].
  destruct (IH (_refresh_iter total st i)) as [-> ->].
  apply _refresh_iter_length.
Qed.

(** [refreshVertices] touches the vertex array, the two logs, and nothing
    else; the vertex array keeps its length. *)
Lemma refreshVertices_frame r :
  points (refreshVertices r) = points r /\
  texture (refreshVertices r) = texture r /\
  uvData (refreshVertices r) = uvData r /\
  indexData (refreshVertices r) = indexData r /\
  autoUpdate (refreshVertices r) = autoUpdate r /\
  length (vertexData (refreshVertices r)) = length (vertexData r).
Proof.
  unfold refreshVertices. case_bool_decide; [easy|].
  pose proof (refreshVertices_fold_length (points r) (texture r) (length (points r))
                (seq 0 (length (points r)))
                (vertexData r, points r !!! 0%nat, divisions r)) as Hl.
  destruct (foldl _ _ _) as [[v l] d]. simpl in *. easy.
Qed.

(** On an array with four slots per point, [refreshVertices] writes every
    slot. *)
Lemma refreshVertices_exact r :
  (1 <= length (points r))%nat ->
  length (vertexData r) = (length (points r) * 4)%nat ->
  refreshVertices r =
  mkRope (points r) (texture r) (vertexSpec (points r) (texture r))
         (uvData r) (indexData r) (autoUpdate r)
         (signals r ++ [VertexUpdate (vertexSpec (points r) (texture r))])
         (divisions r ++
          flat_map (vertexDivisionsAt (points r) (texture r)) (seq 0 (length (points r)))).
Proof.
  intros HN Hlen. unfold refreshVertices.
  case_bool_decide; [lia|].
  rewrite refreshVertices_loop by (lia || assumption).
  rewrite drop_ge by lia. rewrite app_nil_r. reflexivity.
Qed.

(** The rebuild of UVs and indices on arrays sized for the points. *)
Lemma rebuild_exact r :
  (1 <= length (points r))%nat ->
  length (uvData r) = (length (points r) * 4)%nat ->
  length (indexData r) = (length (points r) * 2)%nat ->
  rebuild r =
  mkRope (points r) (texture r) (vertexData r)
         (uvSpec (length (points r))) (indexSpec (length (points r)))
         (autoUpdate r) (signals r)
         (divisions r ++ uvDivisions (length (points r))).
Proof.
  intros HN Hu Hi. unfold rebuild.
  destruct (drop_four (uvData r) 0) as (a & b & c & d & Hd); [lia|].
  destruct (drop_two (indexData r) 0) as (a2 & b2 & Hd2); [lia|].
  rewrite drop_0 in Hd. rewrite drop_0 in Hd2. simpl plus in Hd, Hd2.
  pose proof (store_quad [] (drop 4 (uvData r)) a b c d zero zero zero one 0 eq_refl) as Hq.
  pose proof (store_pair [] (drop 2 (indexData r)) a2 b2 0 1 0 eq_refl) as Hp.
  simpl in Hq, Hp. rewrite <- Hd in Hq. rewrite <- Hd2 in Hp.
  rewrite Hq, Hp.
  pose proof (_refresh_loop (length (points r)) (uvData r) (indexData r) (divisions r)
                (length (points r) - 1)) as Hloop.
  change (fround zero :: fround zero :: fround zero :: fround one :: drop 4 (uvData r))
    with (uvQuadAt (length (points r)) 0 ++ drop 4 (uvData r)).
  change (toUint16 0 :: toUint16 1 :: drop 2 (indexData r))
    with (indexPairAt 0 ++ drop 2 (indexData r)).
  rewrite Hloop by (lia || assumption).
  replace (S (length (points r) - 1)) with (length (points r)) by lia.
  rewrite !drop_ge by lia. rewrite !app_nil_r. reflexivity.
Qed.

Lemma consistent_sized r : consistent r -> sized r.
Proof. intros [Hu Hi] Hv. lia. Qed.

Lemma reallocate_fits r :
  sized r ->
  length (vertexData (reallocate r)) = (length (points r) * 4)%nat /\
  length (uvData (reallocate r)) = (length (points r) * 4)%nat /\
  length (indexData (reallocate r)) = (length (points r) * 2)%nat /\
  points (reallocate r) = points r /\ texture (reallocate r) = texture r /\
  autoUpdate (reallocate r) = autoUpdate r /\ signals (reallocate r) = signals r /\
  divisions (reallocate r) = divisions r.
Proof.
  intros Hs. unfold reallocate. case_bool_decide as Hne; simpl.
  - unfold newFloat32Array, newUint16Array. rewrite !length_replicate. easy.
  - assert (length (vertexData r) = (length (points r) * 4)%nat) as Hv by lia.
    destruct (Hs Hv). easy.
Qed.

Section WithMesh2d.

Variable multiplyUvs : Texture -> list number -> list number.

Lemma _refresh_early r :
  length (points r) = 0%nat \/ ready (texture r) = false -> _refresh multiplyUvs r = r.
Proof.
  intros [H0 | Hr]; unfold _refresh.
  - rewrite bool_decide_eq_true_2 by lia. reflexivity.
  - rewrite Hr. simpl. now rewrite orb_true_r.
Qed.

Lemma _refresh_exact r :
  (1 <= length (points r))%nat -> ready (texture r) = true -> sized r ->
  _refresh multiplyUvs r = refreshed multiplyUvs r.
Proof.
  intros HN Hready Hs. unfold _refresh.
  rewrite bool_decide_eq_false_2 by lia. rewrite Hready. simpl.
  destruct (reallocate_fits r Hs) as (Hv & Hu & Hi & Hp & Ht & Ha & Hsig & Hdiv).
  rewrite rebuild_exact by (rewrite Hp; lia || assumption).
  rewrite Hp, Ht, Ha, Hsig, Hdiv. simpl.
  rewrite refreshVertices_exact by (simpl; lia || assumption).
  unfold refreshed. simpl. f_equal.
  - now rewrite <- !app_assoc.
  - now rewrite <- !app_assoc.
Qed.

End WithMesh2d.

End Refresh.

(** ** The properties of the rope *)

Module RopeClaims.

Import RopeGeometry Closed NumFacts Binary Loops Refresh Examples.

Lemma refreshed_consistent multiplyUvs r :
  (forall t u, length (multiplyUvs t u) = length u) ->
  consistent (refreshed multiplyUvs r).
Proof.
  intros Hmul. unfold consistent, refreshed. simpl.
  rewrite Hmul, length_uvSpec, length_vertexSpec, length_indexSpec. lia.
Qed.

Lemma construct_sized a tex pts :
  sized (mkRope pts tex (newFloat32Array (length pts * 4))
           (newFloat32Array (length pts * 4)) (newUint16Array (length pts * 2)) a [] []).
Proof.
  intros _. simpl. unfold newFloat32Array, newUint16Array.
  now rewrite !length_replicate.
Qed.

(** The buffers of a freshly constructed rope with at least one point
    and a ready texture. *)
Lemma construct_exact multiplyUvs a tex pts :
  (1 <= length pts)%nat -> ready tex = true ->
  buffers (construct multiplyUvs a tex pts)
  = (vertexSpec pts tex, multiplyUvs tex (uvSpec (length pts)), indexSpec (length pts)).
Proof.
  intros HN Hr. unfold construct, refresh.
  rewrite _refresh_exact; [reflexivity|assumption|assumption|apply construct_sized].
Qed.

(** C1 (as amended).  After [construct(texture, points)] with [N] points
    the vertex, UV and index buffers have lengths [4N], [4N] and [2N].
    When the buffers are sized for [n] points and the rope now has
    [M <> n] points with [M >= 1] and a ready texture, the next full
    refresh leaves buffers of lengths [4M], [4M], [2M] which are, slot for
    slot, those of a rope freshly constructed from the new points: nothing
    of the old contents remains.  ([Mesh2d.multiplyUvs] is assumed to keep
    the length of the array it works on.) *)
Theorem construct_and_resize_buffer_sizes
    (multiplyUvs : Texture -> list number -> list number) :
  (forall t u, length (multiplyUvs t u) = length u) ->
  (forall (a : bool) (tex : Texture) (pts : list Point),
      length (vertexData (construct multiplyUvs a tex pts)) = (length pts * 4)%nat /\
      length (uvData (construct multiplyUvs a tex pts)) = (length pts * 4)%nat /\
      length (indexData (construct multiplyUvs a tex pts)) = (length pts * 2)%nat) /\
  (forall (a : bool) (r : Rope) (n : nat),
      length (vertexData r) = (n * 4)%nat ->
      n <> length (points r) ->
      (1 <= length (points r))%nat ->
      ready (texture r) = true ->
      length (vertexData (_refresh multiplyUvs r)) = (length (points r) * 4)%nat /\
      length (uvData (_refresh multiplyUvs r)) = (length (points r) * 4)%nat /\
      length (indexData (_refresh multiplyUvs r)) = (length (points r) * 2)%nat /\
      buffers (_refresh multiplyUvs r)
      = buffers (construct multiplyUvs a (texture r) (points r))).
Proof.
  intros Hmul. split.
  - intros a tex pts.
    destruct (decide (length pts = 0%nat \/ ready tex = false)) as [Hearly | Hgo].
    + unfold construct, refresh. rewrite _refresh_early by exact Hearly.
      simpl. unfold newFloat32Array, newUint16Array. now rewrite !length_replicate.
    + assert (1 <= length pts)%nat as HN by (destruct (length pts); [tauto | lia]).
      assert (ready tex = true) as Hr by (destruct (ready tex); tauto).
      pose proof (construct_exact multiplyUvs a tex pts HN Hr) as He.
      unfold buffers in He. injection He as -> -> ->.
      now rewrite Hmul, length_vertexSpec, length_uvSpec, length_indexSpec.
  - intros a r n Hold Hne HM Hready.
    assert (sized r) as Hs by (intros Hv; lia).
    rewrite construct_exact by assumption.
    rewrite _refresh_exact by assumption. unfold refreshed, buffers. simpl.
    now rewrite Hmul, length_vertexSpec, length_uvSpec, length_indexSpec.
Qed.

(** C4.  While the texture has no UV metadata, a full refresh returns at
    once: the rope is left exactly as it was, so the three buffers keep
    their contents and lengths and no signal is issued. *)
Theorem not_ready_refresh_is_noop
    (multiplyUvs : Texture -> list number -> list number) (r : Rope) :
  _uvs (texture r) = None ->
  _refresh multiplyUvs r = r /\
  buffers (_refresh multiplyUvs r) = buffers r /\
  length (vertexData (_refresh multiplyUvs r)) = length (vertexData r) /\
  length (uvData (_refresh multiplyUvs r)) = length (uvData r) /\
  length (indexData (_refresh multiplyUvs r)) = length (indexData r) /\
  signals (_refresh multiplyUvs r) = signals r.
Proof.
  intros Hnone.
  assert (_refresh multiplyUvs r = r) as ->; [|easy].
  apply _refresh_early. right. unfold ready. now rewrite Hnone.
Qed.

(** C6.  On a rope whose buffers are sized for one and the same number of
    points, a second full refresh straight after the first leaves the
    three buffers as the first left them. *)
Theorem fullRefresh_idempotent
    (multiplyUvs : Texture -> list number -> list number) (r : Rope) :
  (forall t u, length (multiplyUvs t u) = length u) ->
  consistent r ->
  buffers (_refresh multiplyUvs (_refresh multiplyUvs r)) = buffers (_refresh multiplyUvs r).
Proof.
  intros Hmul Hc.
  destruct (decide (length (points r) = 0%nat \/ ready (texture r) = false)) as [Hearly | Hgo].
  - rewrite (_refresh_early multiplyUvs r Hearly). now rewrite (_refresh_early multiplyUvs r Hearly).
  - assert (1 <= length (points r))%nat as HN by (destruct (length (points r)); [tauto | lia]).
    assert (ready (texture r) = true) as Hr by (destruct (ready (texture r)); tauto).
    rewrite (_refresh_exact multiplyUvs r) by (try assumption; now apply consistent_sized).
    rewrite _refresh_exact; [reflexivity | exact HN | exact Hr |].
    apply consistent_sized, refreshed_consistent, Hmul.
Qed.

(** C7 (as amended).  A full refresh that does not return early rebuilds
    UVs and indices, then signals the update of the UV buffer and of the
    index buffer, then applies the multiplier, then recomputes the
    vertices and signals the vertex buffer.  The data of the UV signal are
    the rebuilt UVs, before the multiplier; the buffer the refresh leaves
    is the multiplier applied to them. *)
Theorem refresh_signal_order
    (multiplyUvs : Texture -> list number -> list number) (r : Rope) :
  (1 <= length (points r))%nat ->
  ready (texture r) = true ->
  let rebuilt := rebuild (reallocate r) in
  let r' := _refresh multiplyUvs r in
  signals r' = signals r ++ [UvUpdate (uvData rebuilt); IndexUpdate (indexData rebuilt);
                             MultiplyUvs; VertexUpdate (vertexData r')] /\
  uvData r' = multiplyUvs (texture r) (uvData rebuilt) /\
  indexData r' = indexData rebuilt.
Proof.
  intros HN Hready rebuilt r'. subst r'. unfold _refresh.
  rewrite bool_decide_eq_false_2 by lia. rewrite Hready. simpl. fold rebuilt.
  assert (points rebuilt = points r /\ texture rebuilt = texture r /\
          signals rebuilt = signals r) as (Hp & Ht & Hs).
  { subst rebuilt. unfold rebuild.
    destruct (foldl _ _ _) as [[u ix] d]. simpl.
    unfold reallocate. now case_bool_decide. }
  unfold refreshVertices. simpl. rewrite Hp.
  rewrite bool_decide_eq_false_2 by lia.
  destruct (foldl _ _ _) as [[v l] d]. simpl.
  rewrite Hs, Ht, <- !app_assoc. easy.
Qed.

(** C8.  The transform update ends, flag or no flag, with the call of
    [containerUpdateTransform]; before it, the vertices are refreshed when
    [autoUpdate] is set and only then.  With the flag set and at least one
    point the vertex buffer is signalled just before the container is
    updated; with the flag off the three buffers and the record of
    divisions stay as they were and no buffer is signalled. *)
Theorem updateTransform_autoUpdate (r : Rope) :
  (autoUpdate r = true ->
   updateTransform r = containerUpdateTransform (refreshVertices r) /\
   signals (updateTransform r) = signals (refreshVertices r) ++ [ContainerUpdateTransform] /\
   ((1 <= length (points r))%nat ->
    signals (updateTransform r)
    = signals r ++ [VertexUpdate (vertexData (refreshVertices r));
                    ContainerUpdateTransform]) /\
   uvData (updateTransform r) = uvData r /\ indexData (updateTransform r) = indexData r) /\
  (autoUpdate r = false ->
   updateTransform r = containerUpdateTransform r /\
   signals (updateTransform r) = signals r ++ [ContainerUpdateTransform] /\
   buffers (updateTransform r) = buffers r /\
   divisions (updateTransform r) = divisions r).
Proof.
  unfold updateTransform. split; intros ->.
  - destruct (refreshVertices_frame r) as (_ & _ & Hu & Hi & _). simpl.
    repeat split; try assumption.
    intros HN. unfold refreshVertices. rewrite bool_decide_eq_false_2 by lia.
    destruct (foldl _ _ _) as [[v l] d]. simpl. now rewrite <- app_assoc.
  - easy.
Qed.

Lemma construct_and_resize_buffer_sizes_witness :
  (forall t u, length (identityUvs t u) = length u) /\
  length (vertexData (construct identityUvs true tex10 threePoints)) = 12%nat /\
  length (vertexData rope3_two) = (3 * 4)%nat /\
  length (points rope3_two) = 2%nat /\
  length (vertexData (_refresh identityUvs rope3_two)) = (2 * 4)%nat /\
  length (uvData (_refresh identityUvs rope3_two)) = (2 * 4)%nat /\
  length (indexData (_refresh identityUvs rope3_two)) = (2 * 2)%nat /\
  buffers (_refresh identityUvs rope3_two)
  = buffers (construct identityUvs true tex10 [pt 1 1; pt 2 2]).
Proof.
  assert (forall t u, length (identityUvs t u) = length u) as Hmul
    by (intros t u; reflexivity).
  destruct (construct_and_resize_buffer_sizes identityUvs Hmul) as [Hnew Hresize].
  split; [exact Hmul|]. split; [exact (proj1 (Hnew true tex10 threePoints))|].
  split; [reflexivity|]. split; [reflexivity|].
  apply (Hresize true rope3_two 3%nat).
  - reflexivity.
  - vm_compute. lia.
  - vm_compute. lia.
  - reflexivity.
Defined.

(** C1, counterexample.  A rope of three points whose point
    sequence is emptied keeps, after the next full refresh, its buffers of
    12, 12 and 6 slots: the refresh returns early on an empty sequence,
    and the buffers are not resized to 0. *)
Lemma resize_to_empty_keeps_buffers :
  length (vertexData rope3_emptied) = (3 * 4)%nat /\
  length (points rope3_emptied) = 0%nat /\
  ready (texture rope3_emptied) = true /\
  length (vertexData (_refresh identityUvs rope3_emptied)) = 12%nat /\
  length (uvData (_refresh identityUvs rope3_emptied)) = 12%nat /\
  length (indexData (_refresh identityUvs rope3_emptied)) = 6%nat /\
  length (vertexData (_refresh identityUvs rope3_emptied))
    <> (length (points rope3_emptied) * 4)%nat.
Proof. vm_compute. repeat split; lia. Qed.

Lemma not_ready_refresh_is_noop_witness :
  _uvs (texture rope3_pending) = None /\
  _refresh identityUvs rope3_pending = rope3_pending /\
  buffers (_refresh identityUvs rope3_pending) = buffers rope3_pending /\
  length (vertexData (_refresh identityUvs rope3_pending)) = length (vertexData rope3_pending) /\
  length (uvData (_refresh identityUvs rope3_pending)) = length (uvData rope3_pending) /\
  length (indexData (_refresh identityUvs rope3_pending)) = length (indexData rope3_pending) /\
  signals (_refresh identityUvs rope3_pending) = signals rope3_pending.
Proof.
  split; [reflexivity|].
  apply (not_ready_refresh_is_noop identityUvs rope3_pending). reflexivity.
Defined.

Lemma fullRefresh_idempotent_witness :
  consistent rope3 /\
  buffers (_refresh identityUvs (_refresh identityUvs rope3))
  = buffers (_refresh identityUvs rope3).
Proof.
  assert (consistent rope3) as Hc by (split; reflexivity).
  split; [exact Hc|].
  apply (fullRefresh_idempotent identityUvs rope3); [|exact Hc].
  intros t u. reflexivity.
Defined.

Lemma refresh_signal_order_witness :
  signals (_refresh halfUvs rope3)
  = signals rope3 ++
    [UvUpdate (uvData (rebuild (reallocate rope3)));
     IndexUpdate (indexData (rebuild (reallocate rope3)));
     MultiplyUvs; VertexUpdate (vertexData (_refresh halfUvs rope3))] /\
  uvData (_refresh halfUvs rope3) = halfUvs (texture rope3) (uvData (rebuild (reallocate rope3))) /\
  indexData (_refresh halfUvs rope3) = indexData (rebuild (reallocate rope3)).
Proof.
  apply (refresh_signal_order halfUvs rope3).
  - vm_compute. lia.
  - reflexivity.
Defined.

(** C7, counterexample.  On the rope of three points with the halving
    multiplier, the signals of the construction are, in this order: UV
    update, index update, [multiplyUvs], vertex update.  The UV buffer is
    signalled before the multiplier is applied, and the data it holds at
    that moment are the unmultiplied [uvs3], not what the buffer holds
    when the refresh is over. *)
Lemma uv_signal_precedes_multiplier :
  signals rope3_half
  = [UvUpdate uvs3; IndexUpdate indices3; MultiplyUvs; VertexUpdate vertices3] /\
  uvData rope3_half = halfUvs tex10 uvs3 /\
  uvData rope3_half <> uvs3.
Proof.
  split; [vm_compute; reflexivity|]. split; [vm_compute; reflexivity|].
  vm_compute. discriminate.
Qed.

Lemma updateTransform_autoUpdate_witness :
  (autoUpdate rope3 = true /\
   updateTransform rope3 = containerUpdateTransform (refreshVertices rope3)) /\
  (autoUpdate rope3_manual = false /\
   buffers (updateTransform rope3_manual) = buffers rope3_manual).
Proof.
  split.
  - split; [reflexivity|].
    apply (proj1 (updateTransform_autoUpdate rope3)). reflexivity.
  - split; [reflexivity|].
    apply (proj2 (updateTransform_autoUpdate rope3_manual)). reflexivity.
Defined.

(** C3.  Three points [(0,0)], [(10,0)], [(20,0)] on a ready texture of
    height 10 whose multiplier leaves the UVs as they are: after the
    construction (one full refresh) the vertex pair of each point is the
    point moved by [(0,-5)] and by [(0,+5)], the UVs are
    [(0,0),(0,1),(0.5,0),(0.5,1),(1,0),(1,1)] and the indices are
    [0,1,2,3,4,5], point [i] giving [2i] and [2i+1]. *)
Theorem three_point_scenario
    (multiplyUvs : Texture -> list number -> list number) (a : bool) :
  multiplyUvs tex10 uvs3 = uvs3 ->
  let r := construct multiplyUvs a tex10 threePoints in
  vertexData r = vertices3 /\
  vertexData r
  = flat_map (fun p => [fround (add (x p) zero); fround (add (y p) (ofZ (-5)));
                        fround (add (x p) zero); fround (add (y p) (ofZ 5))]) threePoints /\
  uvData r = uvs3 /\
  indexData r = indices3 /\
  indexData r = flat_map (fun i : nat => [2 * Z.of_nat i; 2 * Z.of_nat i + 1]) (seq 0 3).
Proof.
  intros Hmul r.
  assert (vertexSpec threePoints tex10 = vertices3) as Hv3 by (vm_compute; reflexivity).
  assert (uvSpec 3 = uvs3) as Hu3 by (vm_compute; reflexivity).
  assert (indexSpec 3 = indices3) as Hi3 by (vm_compute; reflexivity).
  assert (buffers r = (vertices3, uvs3, indices3)) as He.
  { subst r. rewrite construct_exact; [|simpl; lia|reflexivity].
    change (length threePoints) with 3%nat. now rewrite Hv3, Hu3, Hi3, Hmul. }
  assert (vertexData r = vertices3) as -> by exact (f_equal (fun b => b.1.1) He).
  assert (uvData r = uvs3) as -> by exact (f_equal (fun b => b.1.2) He).
  assert (indexData r = indices3) as -> by exact (f_equal snd He).
  repeat split; vm_compute; reflexivity.
Qed.

Lemma three_point_scenario_witness :
  identityUvs tex10 uvs3 = uvs3 /\
  vertexData rope3 = vertices3 /\ uvData rope3 = uvs3 /\ indexData rope3 = indices3.
Proof.
  split; [reflexivity|].
  pose proof (three_point_scenario identityUvs true eq_refl) as H.
  exact (conj (proj1 H) (conj (proj1 (proj2 (proj2 H))) (proj1 (proj2 (proj2 (proj2 H)))))).
Defined.

(** A slot of a list made of chunks of equal length. *)
Lemma lookup_flat_map_chunk {A} (f : nat -> list A) (k n i c : nat) :
  (forall j, length (f j) = k) -> (i < n)%nat -> (c < k)%nat ->
  flat_map f (seq 0 n) !! (i * k + c)%nat = f i !! c.
Proof.
  intros Hf Hi Hc. induction n as [|n IH]; [lia|].
  rewrite seq_S, flat_map_snoc. simpl plus.
  assert (length (flat_map f (seq 0 n)) = (n * k)%nat) as Hlen
    by (rewrite (length_flat_map_const _ k) by exact Hf; now rewrite length_seq).
  destruct (decide (i < n)%nat) as [Hlt | Hge].
  - rewrite lookup_app_l by (rewrite Hlen; nia). now apply IH.
  - assert (i = n) as -> by lia.
    rewrite lookup_app_r by (rewrite Hlen; lia). rewrite Hlen. f_equal. lia.
Qed.

(** The four slots of a point whose direction vector is zero or NaN. *)
Lemma vertexQuad_nan tex lastPoint point nextPoint :
  (perpX0 lastPoint nextPoint = S754_nan \/ is_zero (perpX0 lastPoint nextPoint) = true) ->
  (perpY0 lastPoint nextPoint = S754_nan \/ is_zero (perpY0 lastPoint nextPoint) = true) ->
  vertexQuad tex lastPoint point nextPoint = [S754_nan; S754_nan; S754_nan; S754_nan].
Proof.
  intros HX HY.
  assert (div (perpX0 lastPoint nextPoint) (perpLengthOf lastPoint nextPoint) = S754_nan /\
          div (perpY0 lastPoint nextPoint) (perpLengthOf lastPoint nextPoint) = S754_nan)
    as [Hdx Hdy].
  { unfold perpLengthOf.
    destruct HX as [-> | HX].
    - rewrite norm_nan_l. now rewrite div_nan_l, div_nan_r.
    - destruct HY as [-> | HY].
      + rewrite norm_nan_r. now rewrite div_nan_l, div_nan_r.
      + pose proof (norm_zero _ _ HX HY) as Hn.
        now rewrite !div_zero_zero. }
  unfold vertexQuad, scaledPerpX, scaledPerpY. rewrite Hdx, Hdy.
  now rewrite !mul_nan_l, !add_nan_r, !sub_nan_r, fround_nan.
Qed.

(** C5 (as amended).  On a rope of exactly one point with a ready
    texture, [fullRefresh] and [refreshVertices] run to their end: the
    only point read is the point itself, and the arrays keep their sizes.
    The UV pair of the point is written with [u = 0], as [(0,0)] and
    [(0,1)].  The UV normalization divides nothing: its loop starts at
    [i = 1] and does not run, so no division [i / (total - 1)] of
    [_refresh] is evaluated.  The divisions that are evaluated are the
    four of the single turn of [refreshVertices]; the first of them is the
    taper ratio [0 / (total - 1)] with [total - 1 = 0], whose result NaN
    is discarded. *)
Theorem single_point_refresh
    (multiplyUvs : Texture -> list number -> list number) (r : Rope) (p : Point) :
  points r = [p] ->
  ready (texture r) = true ->
  sized r ->
  let r' := _refresh multiplyUvs r in
  let turn := [mkDivision TaperRatio zero zero;
               mkDivision HalfHeight (height (texture r)) two;
               mkDivision NormalizeX (perpX0 p p) (perpLengthOf p p);
               mkDivision NormalizeY (perpY0 p p) (perpLengthOf p p)] in
  (points r !! 0%nat = Some p /\ lastPointAt (points r) 0 = p /\ nextPointAt (points r) 0 = p) /\
  signals r' = signals r ++
    [UvUpdate [fround zero; fround zero; fround zero; fround one];
     IndexUpdate [0; 1]; MultiplyUvs; VertexUpdate (vertexData r')] /\
  uvData r' = multiplyUvs (texture r) [fround zero; fround zero; fround zero; fround one] /\
  length (vertexData r') = 4%nat /\
  length (vertexData (refreshVertices r)) = length (vertexData r) /\
  divisions r' = divisions r ++ turn /\
  divisions (refreshVertices r) = divisions r ++ turn /\
  Forall (fun d => site d <> UvAmount) turn /\
  div zero zero = S754_nan.
Proof.
  intros Hp Hready Hs r' turn. subst r'.
  split; [now rewrite Hp|].
  rewrite _refresh_exact by (try assumption; rewrite Hp; simpl; lia).
  unfold refreshed. rewrite Hp. simpl.
  split; [reflexivity|]. split; [reflexivity|]. split; [reflexivity|].
  split; [apply refreshVertices_frame|].
  split; [reflexivity|].
  split.
  - unfold refreshVertices. rewrite Hp. simpl.
    unfold refreshVertices_iter. reflexivity.
  - split; [|reflexivity].
    subst turn. repeat constructor; simpl; discriminate.
Qed.

Lemma single_point_refresh_witness :
  points rope1 = [pt 3 4] /\
  uvData (_refresh identityUvs rope1) = [f32 0; f32 0; f32 0; f32 1] /\
  length (vertexData (_refresh identityUvs rope1)) = 4%nat.
Proof.
  split; [reflexivity|].
  assert (sized rope1) as Hs by (intros _; split; reflexivity).
  pose proof (single_point_refresh identityUvs rope1 (pt 3 4) eq_refl eq_refl Hs) as H.
  exact (conj (proj1 (proj2 (proj2 H))) (proj1 (proj2 (proj2 (proj2 H))))).
Defined.

(** C5, counterexample.  On the rope of the single point [(3,4)],
    [refreshVertices] and the full refresh that ends with it evaluate
    the quotient [i / (total - 1)] of the taper ratio with [i = 0] and
    [total - 1 = 0]: a division by zero on that denominator, which yields
    NaN. *)
Lemma single_point_divides_by_zero :
  length (points rope1) = 1%nat /\
  ofZ (Z.of_nat (length (points rope1)) - 1) = S754_zero false /\
  divisions (refreshVertices (set_divisions [] rope1)) !! 0%nat
    = Some (mkDivision TaperRatio (ofNat 0) (S754_zero false)) /\
  divisions (_refresh identityUvs (set_divisions [] rope1)) !! 0%nat
    = Some (mkDivision TaperRatio (ofNat 0) (S754_zero false)) /\
  div (ofNat 0) (S754_zero false) = S754_nan.
Proof. vm_compute. repeat split; reflexivity. Qed.

(** C10.  In [refreshVertices], a point whose direction vector
    [(perpX, perpY)] is zero has [perpLength = 0]; the two divisions by
    it are divisions of zero by zero, and the four slots of the point
    receive NaN.  The loop goes on all the same: every point gets its
    four slots and the array keeps its length.  The direction vector is
    zero whenever the previous and the next point have the same, finite,
    coordinates; for a sequence of exactly one point both are the point
    itself, and its four slots are NaN whatever its coordinates. *)
Theorem zero_direction_writes_NaN :
  (forall (r : Rope) (i : nat),
      (i < length (points r))%nat ->
      length (vertexData r) = (length (points r) * 4)%nat ->
      is_zero (perpX0 (lastPointAt (points r) i) (nextPointAt (points r) i)) = true ->
      is_zero (perpY0 (lastPointAt (points r) i) (nextPointAt (points r) i)) = true ->
      let lastPoint := lastPointAt (points r) i in
      let nextPoint := nextPointAt (points r) i in
      is_zero (perpLengthOf lastPoint nextPoint) = true /\
      div (perpX0 lastPoint nextPoint) (perpLengthOf lastPoint nextPoint) = S754_nan /\
      div (perpY0 lastPoint nextPoint) (perpLengthOf lastPoint nextPoint) = S754_nan /\
      forall c, (c < 4)%nat ->
        vertexData (refreshVertices r) !! (i * 4 + c)%nat = Some S754_nan) /\
  (forall (r : Rope),
      length (vertexData r) = (length (points r) * 4)%nat ->
      length (vertexData (refreshVertices r)) = length (vertexData r) /\
      forall j c, (j < length (points r))%nat -> (c < 4)%nat ->
        vertexData (refreshVertices r) !! (j * 4 + c)%nat
        = vertexQuadAt (points r) (texture r) j !! c) /\
  (forall a b : Point,
      is_finite (x a) = true -> is_finite (y a) = true -> x b = x a -> y b = y a ->
      is_zero (perpX0 a b) = true /\ is_zero (perpY0 a b) = true) /\
  (forall (r : Rope) (p : Point),
      points r = [p] -> length (vertexData r) = 4%nat ->
      lastPointAt (points r) 0 = p /\ nextPointAt (points r) 0 = p /\
      vertexData (refreshVertices r) = [S754_nan; S754_nan; S754_nan; S754_nan]).
Proof.
  assert (forall r : Rope,
            length (vertexData r) = (length (points r) * 4)%nat ->
            forall j c, (j < length (points r))%nat -> (c < 4)%nat ->
              vertexData (refreshVertices r) !! (j * 4 + c)%nat
              = vertexQuadAt (points r) (texture r) j !! c) as Hslots.
  { intros r Hlen j c Hj Hc. rewrite refreshVertices_exact by (lia || assumption). simpl.
    unfold vertexSpec. now apply lookup_flat_map_chunk. }
  split; [|split; [|split]].
  - intros r i Hi Hlen HX HY lastPoint nextPoint.
    pose proof (norm_zero _ _ HX HY) as Hn. fold (perpLengthOf lastPoint nextPoint) in Hn.
    split; [exact Hn|]. split; [now rewrite div_zero_zero|].
    split; [now rewrite div_zero_zero|].
    intros c Hc. rewrite Hslots by assumption.
    unfold vertexQuadAt. rewrite vertexQuad_nan by (right; assumption).
    destruct c as [|[|[|[|c]]]]; [reflexivity..|lia].
  - intros r Hlen. split; [apply refreshVertices_frame | now apply Hslots].
  - intros a b Hfx Hfy Hx Hy. unfold perpX0, perpY0. rewrite Hx, Hy.
    rewrite !sub_diag_finite by assumption. easy.
  - intros r p Hp Hl. rewrite Hp. split; [reflexivity|]. split; [reflexivity|].
    rewrite refreshVertices_exact by (rewrite Hp; simpl; lia).
    simpl. rewrite Hp.
    change (vertexSpec [p] (texture r)) with (vertexQuad (texture r) p p p ++ []).
    rewrite vertexQuad_nan; [reflexivity| |].
    + unfold perpX0. destruct (sub_diag_cases (y p)) as [-> | ->]; [now right | now left].
    + unfold perpY0. destruct (sub_diag_cases (x p)) as [-> | ->]; [now right | now left].
Qed.

Lemma zero_direction_writes_NaN_witness :
  is_zero (perpX0 (lastPointAt (points rope1) 0) (nextPointAt (points rope1) 0)) = true /\
  is_zero (perpY0 (lastPointAt (points rope1) 0) (nextPointAt (points rope1) 0)) = true /\
  (forall c, (c < 4)%nat ->
     vertexData (refreshVertices rope1) !! (0 * 4 + c)%nat = Some S754_nan).
Proof.
  split; [reflexivity|]. split; [reflexivity|].
  apply (proj1 zero_direction_writes_NaN rope1 0%nat).
  - vm_compute. lia.
  - reflexivity.
  - reflexivity.
  - reflexivity.
Defined.

(** The quotient [0 / d] is [+0]. *)
Lemma quotient_zero (d : Z) : 1 <= d < 2 ^ 53 -> div (ofNat 0) (ofZ d) = S754_zero false.
Proof.
  intros Hd. destruct (ofZ_spec d Hd) as (m & e & -> & _). reflexivity.
Qed.

(** The quotient [d / d] is [1]. *)
Lemma quotient_one (d : Z) : 1 <= d < 2 ^ 53 -> div (ofZ d) (ofZ d) = one.
Proof.
  intros Hd. destruct (ofZ_spec d Hd) as (m & e & -> & Hdig & _). now apply div_self.
Qed.

(** C2.  On a rope of [N >= 2] points with a ready texture, the full
    refresh writes for point [i] the two UV samples [(u i, 0)] and
    [(u i, 1)], where [u i] is the quotient [i / (N - 1)] as JavaScript
    computes it and a [Float32Array] stores it; these are the data of the
    UV signal, and the buffer the refresh leaves is the texture's
    multiplier applied to them (the same data when the multiplier leaves
    them alone).  [u 0] is [0], [u (N - 1)] is [1], and [u] does not
    decrease with [i].  (The length of an array is below [2^53].) *)
Theorem uv_parameter
    (multiplyUvs : Texture -> list number -> list number) (r : Rope) :
  (2 <= length (points r))%nat ->
  Z.of_nat (length (points r)) <= 2 ^ 53 ->
  ready (texture r) = true ->
  sized r ->
  let n := length (points r) in
  let u := fun i : nat => fround (div (ofNat i) (ofZ (Z.of_nat n - 1))) in
  let written := uvSpec n in
  (signals (_refresh multiplyUvs r) !! length (signals r) = Some (UvUpdate written) /\
   uvData (_refresh multiplyUvs r) = multiplyUvs (texture r) written /\
   (multiplyUvs (texture r) written = written ->
    uvData (_refresh multiplyUvs r) = written)) /\
  (forall i, (i < n)%nat ->
     written !! (i * 4)%nat = Some (u i) /\
     written !! (i * 4 + 1)%nat = Some (fround zero) /\
     written !! (i * 4 + 2)%nat = Some (u i) /\
     written !! (i * 4 + 3)%nat = Some (fround one)) /\
  u 0%nat = S754_zero false /\
  u (n - 1)%nat = fround one /\
  (forall i j, (i <= j)%nat -> (j < n)%nat -> leb (u i) (u j) = true).
Proof.
  intros HN Hbound Hready Hs n u written.
  assert (1 <= Z.of_nat n - 1 < 2 ^ 53) as Hd by (subst n; lia).
  assert (u 0%nat = S754_zero false) as Hu0.
  { subst u. cbv beta. now rewrite quotient_zero. }
  split; [|split; [|split; [exact Hu0|split]]].
  - rewrite _refresh_exact by (lia || assumption). unfold refreshed. simpl.
    fold n. fold written. split; [|split; [reflexivity|now intros ->]].
    rewrite lookup_app_r by lia. now rewrite Nat.sub_diag.
  - intros i Hi.
    assert (forall c, (c < 4)%nat -> written !! (i * 4 + c)%nat = uvQuadAt n i !! c) as Hslot
      by (intros c Hc; subst written; unfold uvSpec; now apply lookup_flat_map_chunk).
    assert (fround (amount n i) = u i) as Hamount.
    { destruct i as [|i]; [|reflexivity]. rewrite Hu0. reflexivity. }
    replace (i * 4)%nat with (i * 4 + 0)%nat at 1 by lia.
    rewrite !Hslot by lia. unfold uvQuadAt. rewrite Hamount. easy.
  - subst u. cbv beta. unfold ofNat.
    replace (Z.of_nat (n - 1)) with (Z.of_nat n - 1) by lia.
    now rewrite quotient_one.
  - intros i j Hij Hj. subst u. cbv beta. unfold leb, ofNat.
    apply stored_quotient_mono; lia.
Qed.

Lemma uv_parameter_witness :
  (2 <= length (points rope3))%nat /\
  uvData (_refresh identityUvs rope3) = uvSpec 3 /\
  uvSpec 3 !! 4%nat = Some half32 /\
  leb (fround (div (ofNat 1) (ofZ 2))) (fround (div (ofNat 2) (ofZ 2))) = true.
Proof.
  assert (2 <= length (points rope3))%nat as HN by (vm_compute; lia).
  assert (Z.of_nat (length (points rope3)) <= 2 ^ 53) as Hb by (vm_compute; discriminate).
  assert (sized rope3) as Hs by (intros _; split; reflexivity).
  pose proof (uv_parameter identityUvs rope3 HN Hb eq_refl Hs) as (Hsig & Hslots & _ & _ & Hmono).
  split; [exact HN|]. split; [|split].
  - exact (proj1 (proj2 Hsig)).
  - exact (proj1 (Hslots 1%nat ltac:(vm_compute; lia))).
  - exact (Hmono 1%nat 2%nat ltac:(lia) ltac:(vm_compute; lia)).
Defined.

End RopeClaims.

(** ** The properties of the sprite-sheet loader *)

Module LoaderClaims.

Import JsonLoader Examples.

Lemma processFrames_spec (base : BaseTexture) (frameData : list (string * FrameData))
    (cache : gmap string Texture) :
  NoDup frameData.*1 ->
  Forall (fun e => complete e.2) frameData ->
  exists cache',
    processFrames base frameData cache = Normal cache' /\
    (forall name fd rect,
        (name, fd) ∈ frameData -> frame fd = Some rect ->
        cache' !! name = Some (regionOf base fd rect)) /\
    (forall name,
        (forall fd, (name, fd) ∈ frameData -> frame fd = None) ->
        cache' !! name = cache !! name).
Proof.
  revert cache. induction frameData as [|[i fd] rest IH]; intros cache Hnd Hall.
  - exists cache. split; [reflexivity|]. split; [|reflexivity].
    intros name fd rect Hin. now apply elem_of_nil in Hin.
  - rewrite fmap_cons in Hnd. apply NoDup_cons in Hnd as [Hi Hnd].
    apply Forall_cons in Hall as [Hfd Hall]. simpl in Hi, Hfd.
    assert (forall fd', (i, fd') ∈ rest -> frame fd' = None) as Hfresh.
    { intros fd' Hin. exfalso. apply Hi.
      apply (list_elem_of_fmap_2 fst) in Hin. exact Hin. }
    simpl. destruct (frame fd) as [rect|] eqn:Hframe.
    + assert (exists cache',
                 processFrames base rest (<[i := regionOf base fd rect]> cache) = Normal cache' /\
                 (forall name fd rect,
                     (name, fd) ∈ rest -> frame fd = Some rect ->
                     cache' !! name = Some (regionOf base fd rect)) /\
                 (forall name,
                     (forall fd, (name, fd) ∈ rest -> frame fd = None) ->
                     cache' !! name = <[i := regionOf base fd rect]> cache !! name))
        as (cache' & Hrun & Hbuilt & Hkept) by (apply IH; assumption).
      exists cache'. split; [|split].
      * rewrite <- Hrun. unfold regionOf, clone. simpl.
        destruct (trimmed fd) eqn:Htrim; [|reflexivity].
        destruct (Hfd ltac:(congruence) Htrim) as [Hss Hsss].
        destruct (sourceSize fd); [|congruence].
        destruct (spriteSourceSize fd); [|congruence]. reflexivity.
      * intros name fd' rect' Hin Hfr. apply elem_of_cons in Hin as [Heq | Hin].
        -- injection Heq as -> ->. rewrite Hframe in Hfr. injection Hfr as <-.
           rewrite (Hkept i Hfresh). apply lookup_insert_eq.
        -- now apply (Hbuilt name fd' rect').
      * intros name Hnone.
        assert (name <> i) as Hne.
        { intros ->. specialize (Hnone fd ltac:(apply elem_of_cons; now left)). congruence. }
        rewrite Hkept by (intros fd' Hin; apply Hnone, elem_of_cons; now right).
        now apply lookup_insert_ne.
    + destruct (IH cache Hnd Hall) as (cache' & Hrun & Hbuilt & Hkept).
      exists cache'. split; [exact Hrun|]. split.
      * intros name fd' rect' Hin Hfr. apply elem_of_cons in Hin as [Heq | Hin].
        -- injection Heq as -> ->. congruence.
        -- now apply (Hbuilt name fd' rect').
      * intros name Hnone. apply Hkept.
        intros fd' Hin. apply Hnone, elem_of_cons. now right.
Qed.

(** C9 (as amended).  When the loader processes a sprite-sheet JSON
    whose entries marked trimmed carry [sourceSize] and [spriteSourceSize],
    the loop ends normally and the global texture cache holds, under the
    name of every entry that has a frame rectangle, the one texture region
    built from it: the frame rectangle as frame and as crop, on the base
    texture of the image named by the JSON, and, when the entry is
    trimmed, a trim rectangle with [x], [y] of [spriteSourceSize] and [w],
    [h] of [sourceSize] (no trim otherwise).  An entry without a frame
    rectangle builds nothing: names that have no framed entry keep what
    the cache held for them. *)
Theorem sprite_sheet_frames (baseUrl : string) (json : Json)
    (frameData : list (string * FrameData)) (cache : gmap string Texture) :
  frames json = Some frameData ->
  NoDup frameData.*1 ->
  Forall (fun e => complete e.2) frameData ->
  let base := mkBaseTexture (baseUrl ++ metaImage json) in
  exists cache',
    onJSONLoaded baseUrl json cache = Some (Normal cache') /\
    (forall name fd rect,
        (name, fd) ∈ frameData -> frame fd = Some rect ->
        exists t,
          cache' !! name = Some t /\
          baseTexture t = base /\
          textureFrame t = mkRectangle (jx rect) (jy rect) (jw rect) (jh rect) /\
          crop t = mkRectangle (jx rect) (jy rect) (jw rect) (jh rect) /\
          (trimmed fd = false -> trim t = None) /\
          (forall actualSize realSize,
              trimmed fd = true ->
              sourceSize fd = Some actualSize -> spriteSourceSize fd = Some realSize ->
              trim t = Some (mkRectangle (jx realSize) (jy realSize)
                                         (sw actualSize) (sh actualSize)))) /\
    (forall name,
        (forall fd, (name, fd) ∈ frameData -> frame fd = None) ->
        cache' !! name = cache !! name).
Proof.
  intros Hframes Hnd Hall base. unfold onJSONLoaded. rewrite Hframes.
  destruct (processFrames_spec base frameData cache Hnd Hall)
    as (cache' & Hrun & Hbuilt & Hkept).
  exists cache'. fold base. rewrite Hrun. split; [reflexivity|]. split; [|exact Hkept].
  intros name fd rect Hin Hfr. exists (regionOf base fd rect).
  split; [now apply Hbuilt|]. unfold regionOf. simpl.
  repeat split.
  - now intros ->.
  - now intros actualSize realSize -> -> ->.
Qed.

Lemma sprite_sheet_frames_witness :
  exists cache',
    onJSONLoaded "img/" sheetJson ∅ = Some (Normal cache') /\
    (exists t,
        cache' !! "hero"%string = Some t /\
        textureFrame t = mkRectangle (ofZ 2) (ofZ 4) (ofZ 30) (ofZ 40) /\
        trim t = Some (mkRectangle (ofZ 1) (ofZ 3) (ofZ 32) (ofZ 48))) /\
    cache' !! "blank"%string = None.
Proof.
  assert (NoDup sheetFrames.*1) as Hnd.
  { apply NoDup_cons. split; [|apply NoDup_cons; split; [|apply NoDup_nil_2]].
    - intros Hin. apply list_elem_of_singleton in Hin. discriminate.
    - apply not_elem_of_nil. }
  assert (Forall (fun e => complete e.2) sheetFrames) as Hall.
  { apply Forall_cons. split; [|apply Forall_cons; split; [|apply Forall_nil_2]].
    - intros _ _. split; discriminate.
    - intros Hf _. exfalso. now apply Hf. }
  destruct (sprite_sheet_frames "img/" sheetJson sheetFrames ∅ eq_refl Hnd Hall)
    as (cache' & Hrun & Hbuilt & Hkept).
  exists cache'. split; [exact Hrun|]. split.
  - destruct (Hbuilt "hero"%string heroFrame heroRect) as (t & Ht & _ & Hf & _ & _ & Htrim);
      [apply elem_of_cons; now left | reflexivity |].
    exists t. split; [exact Ht|]. split; [exact Hf|].
    exact (Htrim _ _ eq_refl eq_refl eq_refl).
  - rewrite Hkept; [reflexivity|].
    intros fd Hin. apply elem_of_cons in Hin as [Heq | Hin].
    + discriminate.
    + apply list_elem_of_singleton in Hin. now injection Hin as ->.
Defined.

(** C9, counterexample.  An entry of [json.frames] without a [frame]
    member is skipped by the loop: the sheet with the single entry
    ["blank"] is processed to its end and the cache holds no texture
    region under that name.  And an entry marked trimmed that lacks its
    sizes stops the loop with a [TypeError]: the entries after it get no
    texture region either. *)
Lemma frameless_entry_builds_no_texture :
  ("blank"%string, blankFrame) ∈ [("blank"%string, blankFrame)] /\
  onJSONLoaded "img/" (mkJson (Some [("blank"%string, blankFrame)]) "sheet.png") ∅
  = Some (Normal ∅) /\
  (∅ : gmap string Texture) !! "blank"%string = None /\
  onJSONLoaded "img/" (mkJson (Some [("cut"%string, cutFrame); ("hero"%string, heroFrame)])
                              "sheet.png") ∅
  = Some (Throw ∅).
Proof.
  split; [apply list_elem_of_singleton; reflexivity|].
  repeat split; reflexivity.
Qed.

End LoaderClaims.

(** ** Further properties of the rope *)

Module RopeExtras.

Import RopeGeometry Closed NumFacts Binary Loops Refresh Examples MoreExamples.

(** [_refresh] leaves the point sequence, the texture and the flag alone,
    whatever the state of the buffers. *)
Lemma _refresh_frame (multiplyUvs : Texture -> list number -> list number) (r : Rope) :
  points (_refresh multiplyUvs r) = points r /\
  texture (_refresh multiplyUvs r) = texture r /\
  autoUpdate (_refresh multiplyUvs r) = autoUpdate r.
Proof.
  unfold _refresh. destruct (_ || _); [easy|].
  set (r1 := rebuild (reallocate r)).
  assert (points r1 = points r /\ texture r1 = texture r /\ autoUpdate r1 = autoUpdate r)
    as (Hp & Ht & Ha).
  { subst r1. unfold rebuild. destruct (foldl _ _ _) as [[u ix] d]. simpl.
    unfold reallocate. now case_bool_decide. }
  match goal with |- context [refreshVertices ?s] =>
    destruct (refreshVertices_frame s) as (Hp' & Ht' & _ & _ & Ha' & _) end.
  rewrite Hp', Ht', Ha'. simpl. easy.
Qed.

(** The loop of [refreshVertices] after [j] turns on an array of any
    length: a slot is rewritten when it belongs to one of the first [j]
    points and exists; the other slots are as before. *)
Lemma refreshVertices_loop_any pts tex (v0 : list number) (d0 : list Division) (j : nat) :
  (j <= length pts)%nat ->
  exists v d,
    foldl (refreshVertices_iter pts tex (length pts)) (v0, pts !!! 0%nat, d0) (seq 0 j)
    = (v, lastPointAt pts j, d) /\
    length v = length v0 /\
    forall k,
      v !! k = if decide (k < length v0 /\ k < j * 4)%nat
               then flat_map (vertexQuadAt pts tex) (seq 0 j) !! k
               else v0 !! k.
Proof.
  intros Hj. induction j as [|j IH].
  - exists v0, d0. split; [reflexivity|]. split; [reflexivity|].
    intros k. case_decide; [lia | reflexivity].
  - destruct IH as (v & d & Hfold & Hlen & Hlook); [lia|].
    rewrite seq_S, foldl_snoc, Hfold. simpl plus.
    unfold refreshVertices_iter. fold (nextPointAt pts j).
    eexists _, _. split; [|split].
    + f_equal. f_equal. unfold lastPointAt. f_equal. lia.
    + unfold storeF32. now rewrite !length_insert.
    + intros k. unfold storeF32.
      rewrite !list_lookup_insert, !length_insert, Hlook, Hlen.
      rewrite flat_map_snoc, lookup_app.
      assert (length (flat_map (vertexQuadAt pts tex) (seq 0 j)) = (j * 4)%nat) as HQ
        by (rewrite (length_flat_map_const _ 4%nat) by reflexivity; now rewrite length_seq).
      destruct (decide (k < j * 4)%nat) as [Hold | Hnew].
      * destruct (lookup_lt_is_Some_2 (flat_map (vertexQuadAt pts tex) (seq 0 j)) k)
          as [q Hq]; [lia|].
        rewrite Hq. repeat case_decide; (lia || congruence || reflexivity).
      * rewrite (lookup_ge_None_2 (flat_map (vertexQuadAt pts tex) (seq 0 j)) k) by lia.
        rewrite HQ.
        repeat case_decide; try lia; try reflexivity;
          match goal with
          | H : (j * 4 + ?c = k)%nat /\ _ |- _ =>
              replace (k - j * 4)%nat with c by lia; reflexivity
          | H : (j * 4 = k)%nat /\ _ |- _ =>
              replace (k - j * 4)%nat with 0%nat by lia; reflexivity
          end.
Qed.

(** A slot of the vertex array after [refreshVertices], for an array of
    any length. *)
Lemma refreshVertices_lookup (r : Rope) (k : nat) :
  vertexData (refreshVertices r) !! k
  = if decide (k < length (vertexData r) /\ k < length (points r) * 4)%nat
    then vertexSpec (points r) (texture r) !! k
    else vertexData r !! k.
Proof.
  unfold refreshVertices. case_bool_decide as HN.
  - case_decide; [lia | reflexivity].
  - destruct (refreshVertices_loop_any (points r) (texture r) (vertexData r) (divisions r)
                (length (points r)) ltac:(lia)) as (v & d & -> & Hlen & Hlook).
    simpl. apply Hlook.
Qed.

(** X1.  [refreshVertices] on a vertex array of any length: the array
    keeps its length; a slot that exists and belongs to one of the
    current points receives the value computed for it; every other slot
    keeps what it held.  So an array that is too short for the points is
    not extended, and the slots past the last point are stale. *)
Theorem refreshVertices_any_length (r : Rope) :
  length (vertexData (refreshVertices r)) = length (vertexData r) /\
  (forall k,
      (k < length (vertexData r))%nat -> (k < length (points r) * 4)%nat ->
      vertexData (refreshVertices r) !! k = vertexSpec (points r) (texture r) !! k) /\
  (forall k,
      (length (points r) * 4 <= k)%nat ->
      vertexData (refreshVertices r) !! k = vertexData r !! k).
Proof.
  split; [apply refreshVertices_frame|].
  split; intros k Hk; [intros Hk'|]; rewrite refreshVertices_lookup;
    case_decide; lia || reflexivity.
Qed.

Lemma refreshVertices_any_length_witness :
  vertexData (refreshVertices rope3_short) !! 7%nat
  = vertexSpec (points rope3_short) (texture rope3_short) !! 7%nat /\
  vertexData (refreshVertices rope3_shrunk) !! 5%nat = vertexData rope3_shrunk !! 5%nat.
Proof.
  split.
  - apply (proj1 (proj2 (refreshVertices_any_length rope3_short)) 7%nat).
    + vm_compute. lia.
    + vm_compute. lia.
  - apply (proj2 (proj2 (refreshVertices_any_length rope3_shrunk)) 5%nat).
    vm_compute. lia.
Defined.

(** The buffers [refreshVertices] leaves depend on the points, the
    texture and the buffers only. *)
Lemma refreshVertices_buffers_ext (r1 r2 : Rope) :
  points r1 = points r2 -> texture r1 = texture r2 -> buffers r1 = buffers r2 ->
  buffers (refreshVertices r1) = buffers (refreshVertices r2).
Proof.
  intros Hp Ht Hb. unfold buffers in *. injection Hb as Hv Hu Hi.
  destruct (refreshVertices_frame r1) as (_ & _ & -> & -> & _).
  destruct (refreshVertices_frame r2) as (_ & _ & -> & -> & _).
  rewrite Hu, Hi. do 2 f_equal.
  apply list_eq. intros k. rewrite !refreshVertices_lookup. now rewrite Hp, Ht, Hv.
Qed.

(** X2.  Refreshing the vertices twice leaves the buffers as refreshing
    them once, for every rope; so do two frame updates in a row, flag on
    or off. *)
Theorem refreshVertices_idempotent (r : Rope) :
  buffers (refreshVertices (refreshVertices r)) = buffers (refreshVertices r) /\
  buffers (updateTransform (updateTransform r)) = buffers (updateTransform r).
Proof.
  assert (buffers (refreshVertices (refreshVertices r)) = buffers (refreshVertices r)) as Hidem.
  { destruct (refreshVertices_frame r) as (Hp & Ht & Hu & Hi & _ & Hlen).
    destruct (refreshVertices_frame (refreshVertices r)) as (_ & _ & Hu' & Hi' & _).
    unfold buffers. rewrite Hu', Hi'. do 2 f_equal.
    apply list_eq. intros k. rewrite (refreshVertices_lookup (refreshVertices r)).
    rewrite Hp, Ht, Hlen. case_decide as Hk; [|reflexivity].
    rewrite refreshVertices_lookup. now rewrite decide_True by exact Hk. }
  split; [exact Hidem|].
  unfold updateTransform, containerUpdateTransform.
  change (autoUpdate (emit [ContainerUpdateTransform]
                        (if autoUpdate r then refreshVertices r else r)))
    with (autoUpdate (if autoUpdate r then refreshVertices r else r)).
  destruct (autoUpdate r) eqn:Ha.
  - destruct (refreshVertices_frame r) as (_ & _ & _ & _ & -> & _). rewrite Ha.
    change (buffers (emit ?e ?x)) with (buffers x).
    rewrite <- Hidem. now apply refreshVertices_buffers_ext.
  - rewrite Ha. reflexivity.
Qed.

(** X3.  After a full refresh, moving the points without changing their
    number needs the vertex path only: [refreshVertices], or a frame
    update with the flag on, leaves the three buffers a rope freshly
    constructed from the moved points has. *)
Theorem vertex_path_suffices
    (multiplyUvs : Texture -> list number -> list number)
    (a : bool) (r : Rope) (moved : list Point) :
  sized r ->
  (1 <= length (points r))%nat ->
  ready (texture r) = true ->
  length moved = length (points r) ->
  let r' := set_points moved (_refresh multiplyUvs r) in
  buffers (refreshVertices r') = buffers (construct multiplyUvs a (texture r) moved) /\
  (autoUpdate r = true ->
   buffers (updateTransform r') = buffers (construct multiplyUvs a (texture r) moved)).
Proof.
  intros Hs HN Hready Hlen r'.
  assert (buffers (refreshVertices r') = buffers (construct multiplyUvs a (texture r) moved))
    as Hv.
  { rewrite RopeClaims.construct_exact by (lia || assumption).
    subst r'. rewrite _refresh_exact by assumption.
    rewrite refreshVertices_exact; simpl.
    - unfold buffers. simpl. now rewrite Hlen.
    - lia.
    - rewrite length_vertexSpec. lia. }
  split; [exact Hv|]. intros Ha.
  unfold updateTransform.
  assert (autoUpdate r' = true) as ->.
  { subst r'. simpl. now destruct (_refresh_frame multiplyUvs r) as (_ & _ & ->). }
  exact Hv.
Qed.

Lemma vertex_path_suffices_witness :
  length movedPoints = length (points rope3) /\
  buffers (refreshVertices (set_points movedPoints (_refresh identityUvs rope3)))
  = buffers (construct identityUvs true tex10 movedPoints).
Proof.
  assert (sized rope3) as Hs by (intros _; split; vm_compute; reflexivity).
  assert (1 <= length (points rope3))%nat as HN by (vm_compute; lia).
  assert (ready (texture rope3) = true) as Hr by (vm_compute; reflexivity).
  assert (length movedPoints = length (points rope3)) as Hl by (vm_compute; reflexivity).
  assert (texture rope3 = tex10) as Ht by (vm_compute; reflexivity).
  split; [exact Hl|].
  pose proof (vertex_path_suffices identityUvs true rope3 movedPoints Hs HN Hr Hl) as [H _].
  rewrite Ht in H. exact H.
Defined.

(** X4.  A full refresh that does not return early makes the buffers
    those of a freshly constructed rope, whether it reallocates or not:
    they depend on the points and the texture, not on what the buffers
    held.  In particular a refresh after the texture was swapped for
    another ready one gives the buffers of a rope constructed on that
    texture. *)
Theorem refresh_equals_construct
    (multiplyUvs : Texture -> list number -> list number) (a : bool) (r : Rope) :
  sized r ->
  (1 <= length (points r))%nat ->
  ready (texture r) = true ->
  buffers (_refresh multiplyUvs r) = buffers (construct multiplyUvs a (texture r) (points r)) /\
  (forall t,
     (forall t' u, length (multiplyUvs t' u) = length u) ->
     ready t = true ->
     buffers (_refresh multiplyUvs (set_texture t (_refresh multiplyUvs r)))
     = buffers (construct multiplyUvs a t (points r))).
Proof.
  intros Hs HN Hready. split.
  - rewrite RopeClaims.construct_exact by assumption.
    now rewrite _refresh_exact by assumption.
  - intros t Hmul Ht.
    rewrite RopeClaims.construct_exact by assumption.
    rewrite (_refresh_exact multiplyUvs r) by assumption.
    rewrite _refresh_exact; [reflexivity | exact HN | exact Ht |].
    intros _. simpl. now rewrite Hmul, length_uvSpec, length_indexSpec.
Qed.

Lemma refresh_equals_construct_witness :
  buffers (_refresh identityUvs rope3_short)
  = buffers (construct identityUvs true tex10 threePoints).
Proof.
  assert (sized rope3_short) as Hs by (intros Hv; vm_compute in Hv; discriminate).
  assert (1 <= length (points rope3_short))%nat as HN by (vm_compute; lia).
  assert (ready (texture rope3_short) = true) as Hr by (vm_compute; reflexivity).
  assert (texture rope3_short = tex10) as Ht by (vm_compute; reflexivity).
  assert (points rope3_short = threePoints) as Hp by (vm_compute; reflexivity).
  pose proof (refresh_equals_construct identityUvs true rope3_short Hs HN Hr) as [H _].
  rewrite Ht, Hp in H. exact H.
Defined.



(** X6.  The buffers stay sized for one and the same number of points:
    a constructed rope has them so, and a full refresh, a refresh of the
    vertices and a frame update keep them so.  None of the three touches
    the point sequence, the texture or the flag. *)
Theorem buffers_stay_consistent
    (multiplyUvs : Texture -> list number -> list number) :
  (forall t u, length (multiplyUvs t u) = length u) ->
  (forall a tex pts, consistent (construct multiplyUvs a tex pts)) /\
  (forall r, consistent r ->
     consistent (_refresh multiplyUvs r) /\
     consistent (refreshVertices r) /\
     consistent (updateTransform r)) /\
  (forall r,
     (points (_refresh multiplyUvs r) = points r /\
      texture (_refresh multiplyUvs r) = texture r /\
      autoUpdate (_refresh multiplyUvs r) = autoUpdate r) /\
     (points (refreshVertices r) = points r /\
      texture (refreshVertices r) = texture r /\
      autoUpdate (refreshVertices r) = autoUpdate r) /\
     (points (updateTransform r) = points r /\
      texture (updateTransform r) = texture r /\
      autoUpdate (updateTransform r) = autoUpdate r)).
Proof.
  intros Hmul.
  assert (forall r, consistent r -> consistent (_refresh multiplyUvs r)) as Hrefresh.
  { intros r Hc.
    destruct (decide (length (points r) = 0%nat \/ ready (texture r) = false))
      as [Hearly | Hgo].
    - now rewrite _refresh_early.
    - rewrite _refresh_exact.
      + now apply RopeClaims.refreshed_consistent.
      + destruct (length (points r)); [tauto | lia].
      + destruct (ready (texture r)); tauto.
      + now apply consistent_sized. }
  assert (forall r, consistent r -> consistent (refreshVertices r)) as Hvert.
  { intros r [Hu Hi]. unfold consistent.
    destruct (refreshVertices_frame r) as (_ & _ & -> & -> & _ & ->). easy. }
  split; [|split].
  - intros a tex pts. unfold construct, refresh. apply Hrefresh.
    unfold consistent. simpl. unfold newFloat32Array, newUint16Array.
    rewrite !length_replicate. lia.
  - intros r Hc. split; [now apply Hrefresh|]. split; [now apply Hvert|].
    unfold updateTransform. destruct (autoUpdate r); [now apply Hvert | exact Hc].
  - intros r. split; [apply _refresh_frame|].
    destruct (refreshVertices_frame r) as (Hp & Ht & _ & _ & Ha & _).
    split; [easy|]. unfold updateTransform.
    destruct (autoUpdate r) eqn:E; simpl; [|easy]. now rewrite Hp, Ht, Ha.
Qed.

Lemma buffers_stay_consistent_witness :
  (forall t u, length (halfUvs t u) = length u) /\
  consistent rope3_half /\ consistent (updateTransform rope3_half).
Proof.
  assert (forall t u, length (halfUvs t u) = length u) as Hmul
    by (intros t u; unfold halfUvs; apply length_map).
  destruct (buffers_stay_consistent halfUvs Hmul) as (Hnew & Hkeep & _).
  split; [exact Hmul|]. split; [apply Hnew|]. apply Hkeep, Hnew.
Defined.

(** X7.  The index a full refresh leaves in slot [k] is [k] modulo
    65536, the range of a [Uint16Array]: up to 32768 points the indices
    are [0, 1, ..., 2N - 1], and from 32769 points on they wrap, slot
    65536 holding index 0 again. *)
Theorem index_buffer_wraps
    (multiplyUvs : Texture -> list number -> list number) (r : Rope) :
  sized r ->
  (1 <= length (points r))%nat ->
  ready (texture r) = true ->
  (forall k, (k < length (points r) * 2)%nat ->
     indexData (_refresh multiplyUvs r) !! k = Some (Z.of_nat k mod 65536)) /\
  (Z.of_nat (length (points r)) <= 32768 ->
   forall k, (k < length (points r) * 2)%nat ->
     indexData (_refresh multiplyUvs r) !! k = Some (Z.of_nat k)) /\
  (32768 < Z.of_nat (length (points r)) ->
   indexData (_refresh multiplyUvs r) !! Z.to_nat 65536 = Some 0 /\
   indexData (_refresh multiplyUvs r) !! 0%nat = Some 0).
Proof.
  intros Hs HN Hready.
  assert (forall k, (k < length (points r) * 2)%nat ->
            indexData (_refresh multiplyUvs r) !! k = Some (Z.of_nat k mod 65536)) as Hk.
  { intros k Hlt. rewrite _refresh_exact by assumption. simpl.
    pose proof (Nat.div_mod_eq k 2) as Hdm.
    pose proof (Nat.mod_upper_bound k 2 ltac:(lia)) as Hm.
    remember (k `div` 2)%nat as q eqn:Hq. remember (k `mod` 2)%nat as m eqn:Hmod.
    replace k with (q * 2 + m)%nat by lia.
    unfold indexSpec.
    rewrite (RopeClaims.lookup_flat_map_chunk indexPairAt 2) by (reflexivity || lia).
    unfold indexPairAt, toUint16.
    destruct m as [|[|c]]; [| |lia]; simpl; do 2 f_equal; lia. }
  split; [exact Hk|]. split.
  - intros Hsmall k Hlt. rewrite Hk by exact Hlt. f_equal. apply Z.mod_small. lia.
  - intros Hbig. split; rewrite Hk by lia; [rewrite Z2Nat.id by lia|]; reflexivity.
Qed.

Lemma index_buffer_wraps_witness :
  indexData (_refresh identityUvs rope3_short) !! 5%nat = Some (Z.of_nat 5 mod 65536) /\
  indexData (_refresh identityUvs rope3_short) !! 5%nat = Some (Z.of_nat 5).
Proof.
  assert (sized rope3_short) as Hs by (intros Hv; vm_compute in Hv; discriminate).
  assert (1 <= length (points rope3_short))%nat as HN by (vm_compute; lia).
  assert (ready (texture rope3_short) = true) as Hr by (vm_compute; reflexivity).
  assert (5 < length (points rope3_short) * 2)%nat as Hk by (vm_compute; lia).
  assert (Z.of_nat (length (points rope3_short)) <= 32768) as Hsmall by (vm_compute; discriminate).
  destruct (index_buffer_wraps identityUvs rope3_short Hs HN Hr) as (Hmod & Hexact & _).
  split; [exact (Hmod 5%nat Hk) | exact (Hexact Hsmall 5%nat Hk)].
Defined.

(** X8.  The UV data a full refresh writes and signals lie in the unit
    interval: every coordinate is at least 0 and at most 1, for any number
    of points (below [2^53]). *)
Theorem uvs_in_unit_interval
    (multiplyUvs : Texture -> list number -> list number) (r : Rope) :
  sized r ->
  (1 <= length (points r))%nat ->
  Z.of_nat (length (points r)) <= 2 ^ 53 ->
  ready (texture r) = true ->
  signals (_refresh multiplyUvs r) !! length (signals r)
  = Some (UvUpdate (uvSpec (length (points r)))) /\
  length (uvSpec (length (points r))) = (length (points r) * 4)%nat /\
  Forall (fun v => leb zero v = true /\ leb v (fround one) = true)
         (uvSpec (length (points r))).
Proof.
  intros Hs HN Hbound Hready. split; [|split; [apply length_uvSpec|]].
  - rewrite _refresh_exact by assumption. unfold refreshed. simpl.
    rewrite lookup_app_r by lia. now rewrite Nat.sub_diag.
  - set (n := length (points r)) in *.
    assert (forall i, (i < n)%nat ->
              leb zero (fround (amount n i)) = true /\
              leb (fround (amount n i)) (fround one) = true) as Hamount.
    { intros [|i] Hi; [split; vm_compute; reflexivity|].
      assert (1 <= Z.of_nat n - 1 < 2 ^ 53) as Hd by lia.
      unfold amount, leb, ofNat. split.
      - change zero with (fround (S754_zero false)).
        rewrite <- (RopeClaims.quotient_zero (Z.of_nat n - 1) Hd).
        apply stored_quotient_mono; lia.
      - rewrite <- (RopeClaims.quotient_one (Z.of_nat n - 1) Hd).
        apply stored_quotient_mono; lia. }
    apply Forall_forall. intros v Hv. apply list_elem_of_In in Hv.
    unfold uvSpec in Hv. apply in_flat_map in Hv as (i & Hi & Hv).
    apply in_seq in Hi. destruct (Hamount i ltac:(lia)) as [Hlo Hhi].
    unfold uvQuadAt in Hv. simpl in Hv.
    destruct Hv as [<- | [<- | [<- | [<- | []]]]];
      (split; [exact Hlo | exact Hhi]) || (split; vm_compute; reflexivity).
Qed.

Lemma uvs_in_unit_interval_witness :
  Forall (fun v => leb zero v = true /\ leb v (fround one) = true)
         (uvSpec (length (points rope3_short))).
Proof.
  assert (sized rope3_short) as Hs by (intros Hv; vm_compute in Hv; discriminate).
  assert (1 <= length (points rope3_short))%nat as HN by (vm_compute; lia).
  assert (Z.of_nat (length (points rope3_short)) <= 2 ^ 53) as Hb
    by (vm_compute; discriminate).
  assert (ready (texture rope3_short) = true) as Hr by (vm_compute; reflexivity).
  exact (proj2 (proj2 (uvs_in_unit_interval identityUvs rope3_short Hs HN Hb Hr))).
Defined.

(** X9.  With two points or more, a full refresh evaluates [N - 1]
    divisions for the UVs and four per point for the vertices; those by
    [total - 1], at both places, have the denominator [N - 1], which is
    finite and not zero, and the half height is a division by [2]. *)
Theorem denominators_from_two_points
    (multiplyUvs : Texture -> list number -> list number) (r : Rope) :
  sized r ->
  (2 <= length (points r))%nat ->
  Z.of_nat (length (points r)) <= 2 ^ 53 ->
  ready (texture r) = true ->
  let den := ofZ (Z.of_nat (length (points r)) - 1) in
  exists new,
    divisions (_refresh multiplyUvs r) = divisions r ++ new /\
    length new = (length (points r) - 1 + length (points r) * 4)%nat /\
    Forall (fun d => match site d with
                     | UvAmount | TaperRatio => denominator d = den
                     | HalfHeight => denominator d = two
                     | NormalizeX | NormalizeY => True
                     end) new /\
    is_finite den = true /\ is_zero den = false /\ is_zero two = false.
Proof.
  intros Hs HN Hbound Hready den.
  exists (uvDivisions (length (points r)) ++
          flat_map (vertexDivisionsAt (points r) (texture r)) (seq 0 (length (points r)))).
  split; [|split; [|split]].
  - rewrite _refresh_exact by (lia || assumption). reflexivity.
  - rewrite length_app. unfold uvDivisions.
    rewrite length_map, length_seq, (length_flat_map_const _ 4%nat) by reflexivity.
    now rewrite length_seq.
  - apply Forall_app. split.
    + unfold uvDivisions. apply Forall_forall. intros d Hd.
      apply list_elem_of_In, in_map_iff in Hd as (i & <- & _). reflexivity.
    + apply Forall_forall. intros d Hd.
      apply list_elem_of_In, in_flat_map in Hd as (i & _ & Hd).
      unfold vertexDivisionsAt in Hd. simpl in Hd.
      destruct Hd as [<- | [<- | [<- | [<- | []]]]]; reflexivity || exact I.
  - subst den.
    destruct (ofZ_spec (Z.of_nat (length (points r)) - 1) ltac:(lia)) as (m & e & -> & _).
    easy.
Qed.

Lemma denominators_from_two_points_witness :
  exists new,
    divisions (_refresh identityUvs rope3_short) = divisions rope3_short ++ new /\
    length new = (length (points rope3_short) - 1 + length (points rope3_short) * 4)%nat.
Proof.
  assert (sized rope3_short) as Hs by (intros Hv; vm_compute in Hv; discriminate).
  assert (2 <= length (points rope3_short))%nat as HN by (vm_compute; lia).
  assert (Z.of_nat (length (points rope3_short)) <= 2 ^ 53) as Hb
    by (vm_compute; discriminate).
  assert (ready (texture rope3_short) = true) as Hr by (vm_compute; reflexivity).
  destruct (denominators_from_two_points identityUvs rope3_short Hs HN Hb Hr)
    as (new & Hd & Hl & _).
  exists new. split; [exact Hd | exact Hl].
Defined.

(** X10.  On a rope without points nothing is computed: a full refresh
    and a refresh of the vertices return the rope as it is, even with a
    ready texture, and a frame update only updates the container; a rope
    constructed from no points has three empty buffers and has signalled
    nothing. *)
Theorem empty_sequence
    (multiplyUvs : Texture -> list number -> list number)
    (a : bool) (tex : Texture) (r : Rope) :
  points r = [] ->
  construct multiplyUvs a tex [] = mkRope [] tex [] [] [] a [] [] /\
  _refresh multiplyUvs r = r /\
  refreshVertices r = r /\
  updateTransform r = containerUpdateTransform r.
Proof.
  intros Hp. split; [|split; [|split]].
  - unfold construct, refresh. now rewrite _refresh_early by (left; reflexivity).
  - apply _refresh_early. left. now rewrite Hp.
  - unfold refreshVertices. now rewrite Hp.
  - unfold updateTransform, refreshVertices. rewrite Hp. simpl. now destruct (autoUpdate r).
Qed.

Lemma empty_sequence_witness :
  points rope3_emptied = [] /\
  _refresh identityUvs rope3_emptied = rope3_emptied /\
  refreshVertices rope3_emptied = rope3_emptied.
Proof.
  split; [reflexivity|].
  pose proof (empty_sequence identityUvs true tex10 rope3_emptied eq_refl) as (_ & H1 & H2 & _).
  split; [exact H1 | exact H2].
Defined.

(** The four slots of a point depend on the point, on the one before
    and on the one after only. *)
Lemma vertexQuadAt_insert_far pts tex (i j : nat) (p : Point) :
  (i + 1 < j \/ j + 1 < i)%nat ->
  vertexQuadAt (<[j := p]> pts) tex i = vertexQuadAt pts tex i.
Proof.
  intros Hfar. unfold vertexQuadAt, lastPointAt, nextPointAt.
  rewrite length_insert.
  rewrite !list_lookup_total_insert_ne by lia. reflexivity.
Qed.

(** X11.  Moving one point changes at most three vertex pairs: after the
    point of index [j] is replaced, [refreshVertices] leaves in every slot
    of a point that is neither [j] nor one of its two neighbours what it
    leaves without the replacement. *)
Theorem moving_a_point_is_local (r : Rope) (j : nat) (p : Point) (k : nat) :
  (k `div` 4 + 1 < j \/ j + 1 < k `div` 4)%nat ->
  vertexData (refreshVertices (set_points (<[j := p]> (points r)) r)) !! k
  = vertexData (refreshVertices r) !! k.
Proof.
  intros Hfar. rewrite !refreshVertices_lookup. simpl. rewrite length_insert.
  case_decide as Hk; [|reflexivity].
  pose proof (Nat.div_mod_eq k 4) as Hdm.
  pose proof (Nat.mod_upper_bound k 4 ltac:(lia)) as Hm.
  remember (k `div` 4)%nat as i eqn:Hi. remember (k `mod` 4)%nat as c eqn:Hc.
  replace k with (i * 4 + c)%nat by lia.
  unfold vertexSpec. rewrite length_insert.
  rewrite !(RopeClaims.lookup_flat_map_chunk _ 4) by (reflexivity || lia).
  now rewrite vertexQuadAt_insert_far.
Qed.

Lemma moving_a_point_is_local_witness :
  vertexData (refreshVertices (set_points (<[2%nat := pt 20 9]> (points rope3)) rope3)) !! 1%nat
  = vertexData (refreshVertices rope3) !! 1%nat.
Proof.
  apply (moving_a_point_is_local rope3 2 (pt 20 9) 1).
  left. vm_compute. lia.
Defined.

End RopeExtras.

(** ** Further properties of the loader *)

Module LoaderExtras.

Import Stdlib.Strings.Ascii.
Import JsonLoader LoaderMore Examples MoreExamples.

Local Open Scope string_scope.

Lemma string_app_cons (x : ascii) (a b : string) : String x a ++ b = String x (a ++ b).
Proof. reflexivity. Qed.

Lemma string_app_nil (b : string) : "" ++ b = b.
Proof. reflexivity. Qed.

Lemma string_app_assoc (a b c : string) : (a ++ b) ++ c = a ++ (b ++ c).
Proof.
  induction a as [|x a IH]; [reflexivity|].
  now rewrite !string_app_cons, IH.
Qed.

Lemma lacks_app (c : ascii) (a b : string) :
  lacks c (a ++ b) = lacks c a && lacks c b.
Proof.
  induction a as [|x a IH]; [reflexivity|].
  rewrite string_app_cons. simpl lacks. rewrite IH. now rewrite andb_assoc.
Qed.

Lemma stripFileName_cons (a : ascii) (r : string) :
  stripFileName (String a r)
  = if lacks "/" (String a r) then "" else String a (stripFileName r).
Proof. reflexivity. Qed.

Lemma stripFileName_lacks (s : string) : lacks "/" s = true -> stripFileName s = "".
Proof. intros H. destruct s as [|a r]; [reflexivity|]. now rewrite stripFileName_cons, H. Qed.

Lemma stripFileName_dir (dir file : string) :
  lacks "/" file = true -> stripFileName (dir ++ String "/" file) = dir ++ "/".
Proof.
  intros Hfile. induction dir as [|a dir IH].
  - rewrite string_app_nil, stripFileName_cons. simpl lacks.
    now rewrite stripFileName_lacks.
  - rewrite !string_app_cons, stripFileName_cons.
    assert (lacks "/" (String a (dir ++ String "/" file)) = false) as ->.
    { simpl lacks. rewrite lacks_app. simpl. rewrite andb_false_r. apply andb_false_r. }
    now rewrite IH.
Qed.

(** Every string is its directory part followed by a name without ['/']. *)
Lemma stripFileName_split (url : string) :
  exists file, url = stripFileName url ++ file /\ lacks "/" file = true.
Proof.
  induction url as [|a r (file & Hsplit & Hfile)].
  - now exists "".
  - rewrite stripFileName_cons. destruct (lacks "/" (String a r)) eqn:Hl.
    + now exists (String a r).
    + exists file. split; [|exact Hfile]. rewrite string_app_cons. now rewrite <- Hsplit.
Qed.

Lemma baseUrl_directory_aux (dir file : string) (co : bool) :
  lacks "/" file = true ->
  baseUrl (newJsonLoader (dir ++ "/" ++ file) co) = dir ++ "/" /\
  baseUrl (newJsonLoader file co) = "".
Proof.
  intros Hfile. split; [now apply stripFileName_dir | now apply stripFileName_lacks].
Qed.

(** X12.  The base URL the constructor computes is the URL up to and
    including its last ['/']: for a file in a directory it is the
    directory with its slash, for a bare file name it is empty; what it
    cuts off contains no ['/'], and it is its own base URL. *)
Theorem baseUrl_is_directory (dir file : string) (co : bool) :
  lacks "/" file = true ->
  baseUrl (newJsonLoader (dir ++ "/" ++ file) co) = dir ++ "/" /\
  baseUrl (newJsonLoader file co) = "" /\
  (forall url, exists name,
      url = baseUrl (newJsonLoader url co) ++ name /\ lacks "/" name = true) /\
  (forall url, stripFileName (baseUrl (newJsonLoader url co)) = baseUrl (newJsonLoader url co)).
Proof.
  intros Hfile. unfold newJsonLoader. simpl baseUrl.
  split; [now apply stripFileName_dir|]. split; [now apply stripFileName_lacks|].
  split; [apply stripFileName_split|].
  intros url. induction url as [|a r IH]; [reflexivity|].
  rewrite stripFileName_cons. destruct (lacks "/" (String a r)) eqn:Hl; [reflexivity|].
  rewrite stripFileName_cons, IH.
  assert (lacks "/" (String a (stripFileName r)) = false) as ->; [|reflexivity].
  simpl lacks in Hl |- *. destruct (Ascii.eqb a "/"); [reflexivity|]. simpl in Hl |- *.
  destruct (stripFileName_split r) as (name & Hsplit & Hname).
  rewrite Hsplit, lacks_app, Hname, andb_true_r in Hl. exact Hl.
Qed.

Lemma baseUrl_is_directory_witness :
  lacks "/" "hero.json" = true /\
  baseUrl (newJsonLoader "assets/sheets/hero.json" false) = "assets/sheets/".
Proof.
  split; [reflexivity|].
  exact (proj1 (baseUrl_is_directory "assets/sheets" "hero.json" false eq_refl)).
Defined.

(** Whatever a run of the loop leaves in the cache was there before or
    was built on the base texture of the run. *)
Lemma processFrames_entries (base : BaseTexture) (frameData : list (string * FrameData))
    (cache : gmap string Texture) (name : string) (t : Texture) :
  cacheOf (processFrames base frameData cache) !! name = Some t ->
  cache !! name = Some t \/ baseTexture t = base.
Proof.
  revert cache. induction frameData as [|[i fd] rest IH]; intros cache Hl.
  - now left.
  - simpl in Hl. destruct (frame fd) as [rect|]; [|now apply IH].
    assert (forall t', cacheOf (processFrames base rest (<[i := t']> cache)) !! name = Some t ->
                       baseTexture t' = base -> cache !! name = Some t \/ baseTexture t = base)
      as Hins.
    { intros t' Hl' Hb. destruct (IH _ Hl') as [Hold | Hnew]; [|now right].
      destruct (decide (i = name)) as [-> | Hne].
      - rewrite lookup_insert_eq in Hold. injection Hold as <-. now right.
      - rewrite lookup_insert_ne in Hold by exact Hne. now left. }
    destruct (trimmed fd).
    + destruct (sourceSize fd), (spriteSourceSize fd);
        try (now left); now apply (Hins _ Hl).
    + now apply (Hins _ Hl).
Qed.

(** X13.  A loader made for a JSON file in a directory resolves the
    image of the sheet against that directory: every texture region the
    sprite-sheet branch leaves in the cache either was there before or
    sits on the base texture of the image [dir/image], even when the loop
    stops half way. *)
Theorem sheet_image_beside_json (dir file : string) (co : bool) (json : Json)
    (cache : gmap string Texture) (c : Completion) (name : string) (t : Texture) :
  lacks "/" file = true ->
  loadSpriteSheet (newJsonLoader (dir ++ "/" ++ file) co) json cache = Some c ->
  cacheOf c !! name = Some t ->
  cache !! name = Some t \/ imageUrl (baseTexture t) = dir ++ "/" ++ metaImage json.
Proof.
  intros Hfile Hrun Hl. unfold loadSpriteSheet in Hrun.
  rewrite (proj1 (baseUrl_directory_aux dir file co Hfile)) in Hrun.
  unfold onJSONLoaded in Hrun.
  destruct (frames json) as [frameData|]; [|discriminate].
  injection Hrun as <-.
  destruct (processFrames_entries _ _ _ _ _ Hl) as [Hold | ->]; [now left | right].
  cbn [imageUrl]. apply string_app_assoc.
Qed.

Lemma sheet_image_beside_json_witness :
  exists t,
    cacheOf (processFrames (mkBaseTexture "img/sheet.png") sheetFrames ∅) !! "hero" = Some t /\
    imageUrl (baseTexture t) = "img/sheet.png".
Proof.
  set (t := regionOf (mkBaseTexture "img/sheet.png") heroFrame heroRect).
  assert (cacheOf (processFrames (mkBaseTexture "img/sheet.png") sheetFrames ∅) !! "hero"
          = Some t) as Hl by (vm_compute; reflexivity).
  exists t. split; [exact Hl|].
  destruct (sheet_image_beside_json "img" "sheet.json" false sheetJson ∅
              (processFrames (mkBaseTexture "img/sheet.png") sheetFrames ∅) "hero" t
              eq_refl eq_refl Hl) as [Hold | Hnew].
  - rewrite lookup_empty in Hold. discriminate.
  - exact Hnew.
Defined.

Lemma lastIndexOf_lacks (c : ascii) (s : string) : lacks c s = true -> lastIndexOf c s = -1.
Proof.
  induction s as [|a r IH]; [reflexivity|]. simpl. intros H.
  apply andb_prop in H as [Ha Hr]. rewrite (IH Hr). simpl.
  now destruct (Ascii.eqb a c).
Qed.

Lemma lastIndexOf_last (c : ascii) (a b : string) :
  lacks c b = true -> lastIndexOf c (a ++ String c b) = Z.of_nat (String.length a).
Proof.
  intros Hb. induction a as [|x a IH].
  - rewrite string_app_nil. simpl. rewrite (lastIndexOf_lacks c b Hb). simpl.
    now rewrite Ascii.eqb_refl.
  - rewrite string_app_cons. simpl lastIndexOf. rewrite IH.
    destruct (0 <=? Z.of_nat (String.length a))%Z eqn:E; [simpl String.length; lia|].
    apply Z.leb_gt in E. lia.
Qed.

Lemma substring_prefix (a b : string) : String.substring 0 (String.length a) (a ++ b) = a.
Proof.
  induction a as [|x a IH].
  - simpl. now destruct b.
  - rewrite string_app_cons. simpl. now rewrite IH.
Qed.

Lemma substr_0_prefix (a b : string) : substr_0 (a ++ b) (Z.of_nat (String.length a)) = a.
Proof.
  unfold substr_0. destruct (Z.leb_spec (Z.of_nat (String.length a)) 0%Z) as [Hle | Hgt].
  - destruct a; [reflexivity | simpl in Hle; lia].
  - rewrite Nat2Z.id. apply substring_prefix.
Qed.

Lemma substring_0_prefix (a b : string) :
  substring_0 (a ++ b) (Z.of_nat (String.length a)) = a.
Proof.
  unfold substring_0. rewrite Z.max_l by lia. rewrite Nat2Z.id. apply substring_prefix.
Qed.

Lemma atlasPath_ext (stem ext : string) :
  lacks "." ext = true -> atlasPath (stem ++ "." ++ ext) = stem ++ ".atlas".
Proof.
  intros Hext. unfold atlasPath.
  change (stem ++ "." ++ ext) with (stem ++ String "." ext).
  now rewrite lastIndexOf_last, substr_0_prefix.
Qed.

(** X14.  The path of the atlas file is the URL with what follows its
    last dot replaced by [atlas]: a URL [stem.ext] whose extension has no
    dot gives [stem.atlas], in particular [base.json] gives [base.atlas].
    A URL without any dot gives just [.atlas]: nothing of the URL is
    kept. *)
Theorem atlas_path_replaces_extension (stem ext : string) :
  lacks "." ext = true ->
  atlasPath (stem ++ "." ++ ext) = stem ++ ".atlas" /\
  atlasPath (stem ++ ".json") = stem ++ ".atlas" /\
  atlasPath ext = ".atlas".
Proof.
  intros Hext. split; [now apply atlasPath_ext|]. split.
  - now apply (atlasPath_ext stem "json").
  - unfold atlasPath. now rewrite lastIndexOf_lacks.
Qed.

Lemma atlas_path_replaces_extension_witness :
  lacks "." "skel" = true /\
  atlasPath "assets/boy.v2.skel" = "assets/boy.v2.atlas" /\
  atlasPath "skel" = ".atlas".
Proof.
  split; [reflexivity|].
  destruct (atlas_path_replaces_extension "assets/boy.v2" "skel" eq_refl) as (H1 & _ & H3).
  split; [exact H1 | exact H3].
Defined.

(** X15.  For a skeleton JSON [dir/name.ext] the atlas is looked for
    beside it, under [dir/name.atlas], and the textures of the atlas are
    loaded from [dir], the base URL of the JSON without its closing
    slash; the atlas loader has the same base URL as the JSON loader and
    the same cross-origin flag. *)
Theorem spine_files_beside_json (dir name ext : string) (co : bool) :
  lacks "/" name = true -> lacks "/" ext = true -> lacks "." ext = true ->
  let l := newJsonLoader (dir ++ "/" ++ name ++ "." ++ ext) co in
  url (atlasLoader l) = dir ++ "/" ++ name ++ ".atlas" /\
  spineTextureDir l = dir /\
  baseUrl l = dir ++ "/" /\
  baseUrl (atlasLoader l) = baseUrl l /\
  crossorigin (atlasLoader l) = co /\
  loaded (atlasLoader l) = false.
Proof.
  intros Hname Hext Hdot l.
  assert (url (atlasLoader l) = dir ++ "/" ++ name ++ ".atlas") as Hurl.
  { unfold atlasLoader, newJsonLoader. cbn [url]. subst l. cbn [url].
    assert (dir ++ "/" ++ name ++ "." ++ ext = (dir ++ "/" ++ name) ++ "." ++ ext) as ->
      by (now rewrite !string_app_assoc).
    unfold newJsonLoader. cbn [url].
    rewrite (atlasPath_ext _ ext Hdot). now rewrite !string_app_assoc. }
  assert (lacks "/" (name ++ ".atlas") = true) as Hfile
    by (rewrite lacks_app, Hname; reflexivity).
  assert (baseUrl l = dir ++ "/") as Hbase.
  { subst l. apply (proj1 (baseUrl_directory_aux dir (name ++ "." ++ ext) co
                            ltac:(rewrite !lacks_app, Hname, Hext; reflexivity))). }
  split; [exact Hurl|]. split; [|split; [exact Hbase|split; [|split; reflexivity]]].
  - unfold spineTextureDir. rewrite Hurl.
    change (dir ++ "/" ++ name ++ ".atlas") with (dir ++ String "/" (name ++ ".atlas")).
    now rewrite lastIndexOf_last, substring_0_prefix.
  - rewrite Hbase. unfold atlasLoader at 1. unfold newJsonLoader at 1. cbn [baseUrl].
    change (atlasPath (url l)) with (url (atlasLoader l)). rewrite Hurl.
    now apply stripFileName_dir.
Qed.

Lemma spine_files_beside_json_witness :
  url (atlasLoader (newJsonLoader "assets/spine/boy.json" true)) = "assets/spine/boy.atlas" /\
  spineTextureDir (newJsonLoader "assets/spine/boy.json" true) = "assets/spine".
Proof.
  destruct (spine_files_beside_json "assets/spine" "boy" "json" true eq_refl eq_refl eq_refl)
    as (H1 & H2 & _).
  split; [exact H1 | exact H2].
Defined.

(** The loop over a list of entries in two parts: the second part runs on
    the cache the first leaves, unless the first stopped. *)
Lemma processFrames_app (base : BaseTexture) (pre post : list (string * FrameData))
    (cache : gmap string Texture) :
  processFrames base (pre ++ post)%list cache =
  match processFrames base pre cache with
  | Normal m => processFrames base post m
  | Throw m => Throw m
  end.
Proof.
  revert cache. induction pre as [|[i fd] pre IH]; intros cache; [reflexivity|].
  simpl. destruct (frame fd); [|apply IH].
  destruct (trimmed fd); [|apply IH].
  destruct (sourceSize fd), (spriteSourceSize fd); try reflexivity. apply IH.
Qed.

Lemma processFrames_complete (base : BaseTexture) (frameData : list (string * FrameData))
    (cache : gmap string Texture) :
  Forall (fun e => complete e.2) frameData ->
  exists m, processFrames base frameData cache = Normal m.
Proof.
  revert cache. induction frameData as [|[i fd] rest IH]; intros cache Hall.
  - now exists cache.
  - apply Forall_cons in Hall as [Hfd Hall]. simpl in Hfd. simpl.
    destruct (frame fd) as [rect|] eqn:Hframe; [|now apply IH].
    destruct (trimmed fd) eqn:Htrim; [|now apply IH].
    destruct (Hfd ltac:(congruence) Htrim) as [Hss Hsss].
    destruct (sourceSize fd); [|congruence].
    destruct (spriteSourceSize fd); [|congruence]. now apply IH.
Qed.

Lemma framedNames_cons (i : string) (fd : FrameData) (rest : list (string * FrameData)) :
  framedNames ((i, fd) :: rest) =
  match frame fd with Some _ => i :: framedNames rest | None => framedNames rest end.
Proof.
  unfold framedNames. rewrite filter_cons. simpl.
  destruct (frame fd) as [rect|].
  - rewrite decide_True by (now exists rect). reflexivity.
  - rewrite decide_False by (intros [x Hx]; discriminate). reflexivity.
Qed.

Lemma processFrames_dom_bounds (base : BaseTexture) (frameData : list (string * FrameData))
    (cache : gmap string Texture) :
  dom cache ⊆ dom (cacheOf (processFrames base frameData cache)) /\
  dom (cacheOf (processFrames base frameData cache))
    ⊆ dom cache ∪ list_to_set (framedNames frameData).
Proof.
  revert cache. induction frameData as [|[i fd] rest IH]; intros cache.
  - simpl. split; [reflexivity|]. intros x Hx. apply elem_of_union. now left.
  - rewrite framedNames_cons. simpl. destruct (frame fd) as [rect|]; [|apply IH].
    assert (forall t,
      dom cache ⊆ dom (cacheOf (processFrames base rest (<[i := t]> cache))) /\
      dom (cacheOf (processFrames base rest (<[i := t]> cache)))
        ⊆ dom cache ∪ list_to_set (i :: framedNames rest)) as Hins.
    { intros t. destruct (IH (<[i := t]> cache)) as [Hlo Hhi]. clear IH.
      rewrite dom_insert_L in Hlo, Hhi. simpl. split.
      - intros x Hx. apply Hlo, elem_of_union. now right.
      - intros x Hx. apply Hhi in Hx. rewrite !elem_of_union in Hx.
        rewrite !elem_of_union. tauto. }
    destruct (trimmed fd); [|apply Hins].
    destruct (sourceSize fd); [destruct (spriteSourceSize fd); [apply Hins|]|];
      simpl; (split; [reflexivity|]); intros x Hx; apply elem_of_union; now left.
Qed.

Lemma processFrames_dom_complete (base : BaseTexture)
    (frameData : list (string * FrameData)) (cache : gmap string Texture) :
  Forall (fun e => complete e.2) frameData ->
  dom (cacheOf (processFrames base frameData cache))
    = dom cache ∪ list_to_set (framedNames frameData).
Proof.
  revert cache. induction frameData as [|[i fd] rest IH]; intros cache Hall.
  - simpl. apply set_eq. intros x. rewrite elem_of_union, elem_of_empty. tauto.
  - apply Forall_cons in Hall as [Hfd Hall]. simpl in Hfd.
    rewrite framedNames_cons. simpl.
    destruct (frame fd) as [rect|] eqn:Hframe; [|now apply IH].
    assert (forall t,
      dom (cacheOf (processFrames base rest (<[i := t]> cache)))
        = dom cache ∪ list_to_set (i :: framedNames rest)) as Hins.
    { intros t. rewrite (IH _ Hall), dom_insert_L. simpl.
      apply set_eq. intros x. rewrite !elem_of_union. tauto. }
    destruct (trimmed fd) eqn:Htrim; [|apply Hins].
    destruct (Hfd ltac:(congruence) Htrim) as [Hss Hsss].
    destruct (sourceSize fd); [|congruence].
    destruct (spriteSourceSize fd); [|congruence]. apply Hins.
Qed.

(** X16.  The order in which [for ... in] enumerates the entries of
    [json.frames] does not matter for a sheet that is processed to its
    end: two enumerations of the same entries, with distinct names and
    every trimmed entry carrying its sizes, leave the same cache. *)
Theorem frame_order_is_irrelevant (base : BaseTexture)
    (frameData frameData' : list (string * FrameData)) (cache : gmap string Texture) :
  NoDup frameData.*1 ->
  Forall (fun e => complete e.2) frameData ->
  frameData ≡ₚ frameData' ->
  processFrames base frameData cache = processFrames base frameData' cache.
Proof.
  intros Hnd Hall Hp.
  assert (NoDup frameData'.*1) as Hnd' by (now rewrite <- Hp).
  assert (Forall (fun e => complete e.2) frameData') as Hall' by (now rewrite <- Hp).
  destruct (LoaderClaims.processFrames_spec base frameData cache Hnd Hall)
    as (m & -> & Hbuilt & Hkept).
  destruct (LoaderClaims.processFrames_spec base frameData' cache Hnd' Hall')
    as (m' & -> & Hbuilt' & Hkept').
  f_equal. apply map_eq. intros name.
  destruct (decide (Exists (fun e => e.1 = name /\ is_Some (frame e.2)) frameData))
    as [Hex | Hno].
  - apply Exists_exists in Hex as ([n fd] & Hin & Hn & [rect Hr]). simpl in Hn, Hr.
    subst n. rewrite (Hbuilt name fd rect Hin Hr).
    symmetry. apply Hbuilt'; [|exact Hr]. now rewrite <- Hp.
  - assert (forall fd, (name, fd) ∈ frameData -> frame fd = None) as Hnone.
    { intros fd Hin. destruct (frame fd) as [rect|] eqn:Hr; [|reflexivity].
      exfalso. apply Hno. apply Exists_exists. exists (name, fd).
      split; [exact Hin|]. split; [reflexivity|]. simpl. rewrite Hr. now exists rect. }
    rewrite (Hkept name Hnone). symmetry. apply Hkept'.
    intros fd Hin. apply Hnone. now rewrite Hp.
Qed.

Lemma frame_order_is_irrelevant_witness :
  processFrames (mkBaseTexture "img/sheet.png") twoFrames ∅
  = processFrames (mkBaseTexture "img/sheet.png") twoFramesSwapped ∅.
Proof.
  apply frame_order_is_irrelevant.
  - apply NoDup_cons. split; [|apply NoDup_cons; split; [|apply NoDup_nil_2]].
    + intros Hin. apply list_elem_of_singleton in Hin. discriminate.
    + apply not_elem_of_nil.
  - apply Forall_cons. split; [|apply Forall_cons; split; [|apply Forall_nil_2]].
    + intros _ _. split; discriminate.
    + intros _ Ht. discriminate.
  - apply perm_swap.
Defined.

(** X17.  An entry marked trimmed that has a frame but lacks
    [sourceSize] or [spriteSourceSize] stops the loop with a [TypeError]
    before anything is stored for it.  The cache is left exactly as the
    entries enumerated before it made it, so their texture regions stay
    registered, and no entry enumerated after it is looked at. *)
Theorem broken_entry_stops_the_loop (base : BaseTexture)
    (pre post : list (string * FrameData)) (i : string) (fd : FrameData)
    (cache : gmap string Texture) :
  Forall (fun e => complete e.2) pre ->
  frame fd ≠ None -> trimmed fd = true ->
  sourceSize fd = None \/ spriteSourceSize fd = None ->
  exists m,
    processFrames base pre cache = Normal m /\
    forall post', processFrames base (pre ++ (i, fd) :: post')%list cache = Throw m.
Proof.
  intros Hpre Hframe Htrim Hmiss.
  destruct (processFrames_complete base pre cache Hpre) as (m & Hm).
  exists m. split; [exact Hm|]. intros post'.
  rewrite processFrames_app, Hm. simpl.
  destruct (frame fd); [|congruence]. rewrite Htrim.
  destruct Hmiss as [-> | ->]; [reflexivity|]. now destruct (sourceSize fd).
Qed.

Lemma broken_entry_stops_the_loop_witness :
  exists m,
    m !! "hero" = Some (regionOf (mkBaseTexture "img/sheet.png") heroFrame heroRect) /\
    processFrames (mkBaseTexture "img/sheet.png")
      [("hero", heroFrame); ("cut", cutFrame); ("walk", walkFrame)] ∅ = Throw m /\
    m !! "walk" = None.
Proof.
  assert (Forall (fun e : string * FrameData => complete e.2) [("hero", heroFrame)]) as Hpre.
  { apply Forall_cons. split; [|apply Forall_nil_2]. intros _ _. split; discriminate. }
  destruct (broken_entry_stops_the_loop (mkBaseTexture "img/sheet.png")
              [("hero", heroFrame)] [] "cut" cutFrame ∅ Hpre
              ltac:(discriminate) eq_refl ltac:(left; reflexivity)) as (m & Hm & Hthrow).
  exists m. injection Hm as <-.
  split; [vm_compute; reflexivity|]. split; [apply (Hthrow [("walk", walkFrame)])|].
  vm_compute. reflexivity.
Defined.

(** X18.  The loop only adds to the global cache: every name the cache
    held is still there afterwards, however the loop ends, and every name
    it holds afterwards was there before or is the name of an entry with
    a frame.  When all trimmed entries carry their sizes the names in the
    cache are exactly those two kinds. *)
Theorem cache_names_after_sheet (base : BaseTexture)
    (frameData : list (string * FrameData)) (cache : gmap string Texture) :
  dom cache ⊆ dom (cacheOf (processFrames base frameData cache)) /\
  dom (cacheOf (processFrames base frameData cache))
    ⊆ dom cache ∪ list_to_set (framedNames frameData) /\
  (Forall (fun e => complete e.2) frameData ->
   dom (cacheOf (processFrames base frameData cache))
     = dom cache ∪ list_to_set (framedNames frameData)).
Proof.
  destruct (processFrames_dom_bounds base frameData cache) as [Hlo Hhi].
  split; [exact Hlo|]. split; [exact Hhi|]. apply processFrames_dom_complete.
Qed.

Lemma cache_names_after_sheet_witness :
  dom (cacheOf (processFrames (mkBaseTexture "img/sheet.png") sheetFrames ∅))
  = dom (∅ : gmap string Texture) ∪ list_to_set (framedNames sheetFrames).
Proof.
  apply (cache_names_after_sheet (mkBaseTexture "img/sheet.png") sheetFrames ∅).
  apply Forall_cons. split; [|apply Forall_cons; split; [|apply Forall_nil_2]].
  - intros _ _. split; discriminate.
  - intros Hf _. exfalso. now apply Hf.
Defined.

End LoaderExtras.
